(** * MySQL code completion: a shallow embedding of
      library/parsers/code-completion/mysql-code-completion.cpp

    The development follows the layout of the C++ file: the helper library
    (namespace [base]), the generated grammar identifiers, the token scanner,
    the completion context with its reference stack, the two qualifier
    analysers, the completion sets and finally [getCodeCompletionList]. *)

From Stdlib Require Import List String Ascii Bool Arith NArith ZArith Lia.
From Stdlib Require Import Sorted Structures.OrderedTypeEx.
Import ListNotations.

Local Open Scope list_scope.

(* ------------------------------------------------------------------------- *)
(** ** namespace base: string utilities *)

Module base.

  (** Modelled from the spec: base/string_utilities.h is not part of the
      sources at hand.  [tolower] folds the ASCII capital letters. *)
Definition tolower_ascii (c : ascii) : ascii :=
    let n := nat_of_ascii c in
    if (65 <=? n) && (n <=? 90) then ascii_of_nat (n + 32) else c.

Fixpoint tolower (s : string) : string :=
    match s with
    | EmptyString => EmptyString
    | String c s' => String (tolower_ascii c) (tolower s')
    end.

Definition quote_chars : list ascii :=
    [ascii_of_nat 34; ascii_of_nat 39; ascii_of_nat 96].

Definition is_quote (c : ascii) : bool :=
    existsb (Ascii.eqb c) quote_chars.

Fixpoint last_char (c : ascii) (s : string) : ascii :=
    match s with
    | EmptyString => c
    | String d s' => last_char d s'
    end.

  (** Modelled from the spec: "surrounding quote characters are stripped".
      A text of at least two characters that starts and ends with the same
      quote character loses both. *)
Definition unquote (text : string) : string :=
    match text with
    | String c (String d rest) =>
        if is_quote c && Ascii.eqb c (last_char d rest)
        then substring 1 (String.length text - 2) text
        else text
    | _ => text
    end.

  (** Modelled from the spec: "case-insensitive lexicographic" comparison
      when [case_sensitive] is false; the result is negative, zero or
      positive like the C++ int. *)
Definition string_compare (first second : string) (case_sensitive : bool) : Z :=
    let a := if case_sensitive then first else tolower first in
    let b := if case_sensitive then second else tolower second in
    match String.compare a b with
    | Lt => (-1)%Z
    | Eq => 0%Z
    | Gt => 1%Z
    end.

  (** Modelled from the spec: the two-argument call [same_string (a, b)] of
      the source; the spec treats these comparisons as case-insensitive. *)
Definition same_string (first second : string) : bool :=
    (string_compare first second false =? 0)%Z.

Fixpoint split_by_set_aux (s : string) (separator_set : list ascii)
           (current : string) : list string :=
    match s with
    | EmptyString => [current]
    | String c s' =>
        if existsb (Ascii.eqb c) separator_set
        then current :: split_by_set_aux s' separator_set EmptyString
        else split_by_set_aux s' separator_set
               (String.append current (String c EmptyString))
    end.

  (** Modelled from the spec: splits at every character of the separator
      set; the empty text has no parts. *)
Definition split_by_set (s : string) (separator_set : list ascii) : list string :=
    match s with
    | EmptyString => []
    | _ => split_by_set_aux s separator_set EmptyString
    end.

End base.

(* ------------------------------------------------------------------------- *)
(** ** Grammar identifiers *)

(** Modelled from the spec: the generated MySQLLexer.h is not part of the
    sources at hand.  Token ids are [size_t]; the numbers below are
    stand-ins, only their being pairwise different is ever used. *)
Module MySQLLexer.
Definition INVALID_TYPE : N := 0.
Definition EOF : N := 18446744073709551615.
Definition DOT_SYMBOL : N := 1.
Definition OPEN_PAR_SYMBOL : N := 2.
Definition IDENTIFIER : N := 3.
Definition BACK_TICK_QUOTED_ID : N := 4.
Definition NOT_SYMBOL : N := 10.
Definition NOT2_SYMBOL : N := 11.
Definition CHAR_SYMBOL : N := 20.
Definition NOW_SYMBOL : N := 21.
Definition DAY_SYMBOL : N := 22.
Definition DECIMAL_SYMBOL : N := 23.
Definition DISTINCT_SYMBOL : N := 24.
Definition COLUMNS_SYMBOL : N := 25.
Definition FLOAT_SYMBOL : N := 26.
Definition DOUBLE_SYMBOL : N := 27.
Definition INT_SYMBOL : N := 28.
Definition RELAY_THREAD_SYMBOL : N := 29.
Definition SUBSTRING_SYMBOL : N := 30.
Definition MID_SYMBOL : N := 31.
Definition MEDIUMINT_SYMBOL : N := 32.
Definition NDBCLUSTER_SYMBOL : N := 33.
Definition REGEXP_SYMBOL : N := 34.
Definition DATABASE_SYMBOL : N := 35.
Definition DATABASES_SYMBOL : N := 36.
Definition USER_SYMBOL : N := 37.
Definition STD_SYMBOL : N := 38.
Definition VARCHAR_SYMBOL : N := 39.
Definition VARIANCE_SYMBOL : N := 40.
Definition TINYINT_SYMBOL : N := 41.
Definition SMALLINT_SYMBOL : N := 42.
Definition BIGINT_SYMBOL : N := 43.
Definition FRAC_SECOND_SYMBOL : N := 44.
Definition SECOND_SYMBOL : N := 45.
Definition MINUTE_SYMBOL : N := 46.
Definition HOUR_SYMBOL : N := 47.
Definition WEEK_SYMBOL : N := 48.
Definition MONTH_SYMBOL : N := 49.
Definition QUARTER_SYMBOL : N := 50.
Definition YEAR_SYMBOL : N := 51.
Definition SELECT_SYMBOL : N := 60.
Definition FROM_SYMBOL : N := 61.
Definition WHITESPACE : N := 62.
End MySQLLexer.

(** Modelled from the spec: MySQLQueryType lives in the lexer's headers;
    only [QtUnknown] and [QtCreateTrigger] are named in the source. *)
Inductive MySQLQueryType : Type :=
| QtUnknown
| QtCreateTrigger
| QtOtherQuery (code : N).

Definition MySQLQueryType_eqb (a b : MySQLQueryType) : bool :=
  match a, b with
  | QtUnknown, QtUnknown => true
  | QtCreateTrigger, QtCreateTrigger => true
  | QtOtherQuery m, QtOtherQuery n => (m =? n)%N
  | _, _ => false
  end.

(** The part of the lexer object the completion code calls. *)
Record MySQLLexerObject : Type := mkLexer {
  isIdentifier : N -> bool;
  determineQueryType : MySQLQueryType
}.

(** The preferred rules of the candidate engine, as listed in
    [collectCandidates]; any other rule index is [RuleOther]. *)
Module MySQLParser.
Inductive RuleIndex : Type :=
  | RuleSchemaRef
  | RuleTableRef
  | RuleTableRefWithWildcard
  | RuleFilterTableRef
  | RuleTableRefNoDb
  | RuleColumnRef
  | RuleColumnInternalRef
  | RuleTableWild
  | RuleFunctionRef
  | RuleFunctionCall
  | RuleRuntimeFunctionCall
  | RuleTriggerRef
  | RuleViewRef
  | RuleProcedureRef
  | RuleLogfileGroupRef
  | RuleTablespaceRef
  | RuleEngineRef
  | RuleCollationName
  | RuleCharsetName
  | RuleEventRef
  | RuleServerRef
  | RuleUserVariable
  | RuleSystemVariable
  | RuleLabelRef
  | RuleParameterName
  | RuleProcedureName
  | RuleIdentifier
  | RuleLabelIdentifier
  | RuleOther (index : N).

Definition is_RuleColumnRef (r : RuleIndex) : bool :=
    match r with RuleColumnRef => true | _ => false end.
End MySQLParser.

(* ------------------------------------------------------------------------- *)
(** ** The token scanner *)

Record Token : Type := mkToken {
  getType : N;
  getChannel : N;
  getText : string;
  getLine : nat;
  getCharPositionInLine : nat
}.

Definition eofToken : Token :=
  mkToken MySQLLexer.EOF 0 EmptyString 0 0.

Record Scanner : Type := mkScanner {
  _tokens : list Token;
  _index : nat;
  _tokenStack : list nat
}.

(** Modelled from the spec: the Scanner class (parsers-common.h) is not part
    of the sources at hand.  A cursor over the token list; [next] and
    [previous] move by one token, or to the nearest token of the default
    channel when [skipHidden] is set, and stop at either end. *)
Module ScannerOps.

Definition tokenAt (toks : list Token) (i : nat) : Token := nth i toks eofToken.

Definition visible (t : Token) : bool := (getChannel t =? 0)%N.

Definition setIndex (s : Scanner) (i : nat) : Scanner :=
    mkScanner (_tokens s) i (_tokenStack s).

Definition tokenIndex (s : Scanner) : nat := _index s.
Definition tokenType (s : Scanner) : N := getType (tokenAt (_tokens s) (_index s)).
Definition tokenText (s : Scanner) : string := getText (tokenAt (_tokens s) (_index s)).
Definition tokenChannel (s : Scanner) : N := getChannel (tokenAt (_tokens s) (_index s)).

Definition is_ (s : Scanner) (type : N) : bool := (tokenType s =? type)%N.

Fixpoint next_loop (fuel : nat) (toks : list Token) (i : nat) (skipHidden : bool) : nat :=
    match fuel with
    | O => i
    | S fuel' =>
        if i <? List.length toks - 1 then
          if visible (tokenAt toks (S i)) || negb skipHidden then S i
          else next_loop fuel' toks (S i) skipHidden
        else i
    end.

Definition next (s : Scanner) (skipHidden : bool) : Scanner :=
    setIndex s (next_loop (List.length (_tokens s)) (_tokens s) (_index s) skipHidden).

Fixpoint previous_loop (toks : list Token) (i : nat) (skipHidden : bool) : nat :=
    match i with
    | O => O
    | S j =>
        if visible (tokenAt toks j) || negb skipHidden then j
        else previous_loop toks j skipHidden
    end.

Definition previous (s : Scanner) (skipHidden : bool) : Scanner :=
    setIndex s (previous_loop (_tokens s) (_index s) skipHidden).

Fixpoint lookBack_loop (toks : list Token) (i : nat) : N :=
    match i with
    | O => MySQLLexer.INVALID_TYPE
    | S j =>
        if visible (tokenAt toks j) then getType (tokenAt toks j)
        else lookBack_loop toks j
    end.

Definition lookBack (s : Scanner) : N := lookBack_loop (_tokens s) (_index s).

Definition push (s : Scanner) : Scanner :=
    mkScanner (_tokens s) (_index s) (_index s :: _tokenStack s).

Definition pop (s : Scanner) : Scanner :=
    match _tokenStack s with
    | [] => s
    | i :: rest => mkScanner (_tokens s) i rest
    end.

Fixpoint advance_loop (toks : list Token) (i : nat) (line offset : nat) : option nat :=
    match toks with
    | [] => None
    | t :: rest =>
        if (line <? getLine t) ||
           ((getLine t =? line) && (offset <=? getCharPositionInLine t))
        then Some i
        else advance_loop rest (S i) line offset
    end.

  (** "position on the first token whose start is >= the coordinate";
      past the last token the scanner stays on the final (EOF) token. *)
Definition advanceToPosition (s : Scanner) (line offset : nat) : Scanner :=
    match advance_loop (_tokens s) 0 line offset with
    | Some i => setIndex s i
    | None => setIndex s (List.length (_tokens s) - 1)
    end.

End ScannerOps.

(* ------------------------------------------------------------------------- *)
(** ** ObjectFlags *)

Definition ObjectFlags : Type := Z.

Definition ShowSchemas : ObjectFlags := Z.shiftl 1 0.
Definition ShowTables : ObjectFlags := Z.shiftl 1 1.
Definition ShowColumns : ObjectFlags := Z.shiftl 1 2.
Definition ShowFirst : ObjectFlags := Z.shiftl 1 3.
Definition ShowSecond : ObjectFlags := Z.shiftl 1 4.

Definition hasFlag (flags bit : ObjectFlags) : bool :=
  negb (Z.land flags bit =? 0)%Z.

(* ------------------------------------------------------------------------- *)
(** ** The qualifier analysers *)

Section Qualifiers.

Import ScannerOps.
Import MySQLLexer.

  (** The scanner after the two "seek" phases of [determineQualifier]:
      skip to a visible token, step back from a terminator, then go left
      over at most one dot. *)
Definition qualifierLead (scanner : Scanner) (lexer : MySQLLexerObject) : Scanner :=
    let position := tokenIndex scanner in
    let scanner :=
      if negb (tokenChannel scanner =? 0)%N then next scanner true else scanner in
    let scanner :=
      if negb (is_ scanner DOT_SYMBOL) && negb (isIdentifier lexer (tokenType scanner))
      then previous scanner true else scanner in
    if 0 <? position then
      let scanner :=
        if isIdentifier lexer (tokenType scanner) && (lookBack scanner =? DOT_SYMBOL)%N
        then previous scanner true else scanner in
      if is_ scanner DOT_SYMBOL && isIdentifier lexer (lookBack scanner)
      then previous scanner true else scanner
    else scanner.

Definition determineQualifier (scanner : Scanner) (lexer : MySQLLexerObject)
             (offsetInLine : nat) : ObjectFlags * string * Scanner :=
    let position := tokenIndex scanner in
    let scanner :=
      if negb (tokenChannel scanner =? 0)%N then next scanner true else scanner in
    let scanner :=
      if negb (is_ scanner DOT_SYMBOL) && negb (isIdentifier lexer (tokenType scanner))
      then previous scanner true else scanner in
    let scanner :=
      if 0 <? position then
        let scanner :=
          if isIdentifier lexer (tokenType scanner) && (lookBack scanner =? DOT_SYMBOL)%N
          then previous scanner true else scanner in
        if is_ scanner DOT_SYMBOL && isIdentifier lexer (lookBack scanner)
        then previous scanner true else scanner
      else scanner in
    let qualifier := EmptyString in
    let '(temp, scanner) :=
      if isIdentifier lexer (tokenType scanner)
      then (base.unquote (tokenText scanner), next scanner true)
      else (EmptyString, scanner) in
    if negb (is_ scanner DOT_SYMBOL) || (position <=? tokenIndex scanner)
    then (Z.lor ShowFirst ShowSecond, qualifier, scanner)
    else (ShowSecond, temp, scanner).

(** The scanner after the "seek" phases of [determineSchemaTableQualifier]:
    as before, but going left over at most two dots. *)
Definition schemaTableLead (scanner : Scanner) (lexer : MySQLLexerObject) : Scanner :=
  let position := tokenIndex scanner in
  let scanner :=
    if negb (tokenChannel scanner =? 0)%N then next scanner true else scanner in
  let tokenType0 := tokenType scanner in
  let scanner :=
    if negb (tokenType0 =? DOT_SYMBOL)%N && negb (isIdentifier lexer (tokenType scanner))
    then previous scanner true else scanner in
  if 0 <? position then
    let scanner :=
      if isIdentifier lexer (tokenType scanner) && (lookBack scanner =? DOT_SYMBOL)%N
      then previous scanner true else scanner in
    if is_ scanner DOT_SYMBOL && isIdentifier lexer (lookBack scanner) then
      let scanner := previous scanner true in
      if (lookBack scanner =? DOT_SYMBOL)%N then
        let scanner := previous scanner true in
        if isIdentifier lexer (lookBack scanner)
        then previous scanner true else scanner
      else scanner
    else scanner
  else scanner.

Definition determineSchemaTableQualifier (scanner : Scanner) (lexer : MySQLLexerObject)
    : ObjectFlags * string * string * Scanner :=
    let position := tokenIndex scanner in
    let scanner :=
      if negb (tokenChannel scanner =? 0)%N then next scanner true else scanner in
    let tokenType0 := tokenType scanner in
    let scanner :=
      if negb (tokenType0 =? DOT_SYMBOL)%N && negb (isIdentifier lexer (tokenType scanner))
      then previous scanner true else scanner in
    let scanner :=
      if 0 <? position then
        let scanner :=
          if isIdentifier lexer (tokenType scanner) && (lookBack scanner =? DOT_SYMBOL)%N
          then previous scanner true else scanner in
        if is_ scanner DOT_SYMBOL && isIdentifier lexer (lookBack scanner) then
          let scanner := previous scanner true in
          if (lookBack scanner =? DOT_SYMBOL)%N then
            let scanner := previous scanner true in
            if isIdentifier lexer (lookBack scanner)
            then previous scanner true else scanner
          else scanner
        else scanner
      else scanner in
    let schema := EmptyString in
    let table := EmptyString in
    let '(temp, scanner) :=
      if isIdentifier lexer (tokenType scanner)
      then (base.unquote (tokenText scanner), next scanner true)
      else (EmptyString, scanner) in
    if negb (is_ scanner DOT_SYMBOL) || (position <=? tokenIndex scanner)
    then (Z.lor (Z.lor ShowSchemas ShowTables) ShowColumns, schema, table, scanner)
    else
      let scanner := next scanner true in
      let table := temp in
      let schema := temp in
      if isIdentifier lexer (tokenType scanner) then
        let temp := base.unquote (tokenText scanner) in
        let scanner := next scanner true in
        if negb (is_ scanner DOT_SYMBOL) || (position <=? tokenIndex scanner)
        then (Z.lor ShowTables ShowColumns, schema, table, scanner)
        else
          let table := temp in
          (ShowColumns, schema, table, scanner)
      else (Z.lor ShowTables ShowColumns, schema, table, scanner).

End Qualifiers.

(* ------------------------------------------------------------------------- *)
(** ** Containers of the C++ standard library *)

(** [std::map<size_t, V>]: bindings kept in increasing key order, which is
    the order a range-for visits them. *)
Module StdMap.
Section Bindings.
Variable V : Type.

Fixpoint count (k : N) (m : list (N * V)) : nat :=
  match m with
  | [] => 0
  | (k', _) :: m' => (if (k =? k')%N then 1 else 0) + count k m'
  end.

Fixpoint find (k : N) (m : list (N * V)) : option V :=
  match m with
  | [] => None
  | (k', v) :: m' => if (k =? k')%N then Some v else find k m'
  end.

(** [m[k] = v]: overwrite the binding of [k] or create it in key order. *)
Fixpoint assign (k : N) (v : V) (m : list (N * V)) : list (N * V) :=
  match m with
  | [] => [(k, v)]
  | (k', v') :: m' =>
      if (k <? k')%N then (k, v) :: m
      else if (k =? k')%N then (k, v) :: m'
      else (k', v') :: assign k v m'
  end.

Fixpoint erase (k : N) (m : list (N * V)) : list (N * V) :=
  match m with
  | [] => []
  | (k', v') :: m' =>
      if (k =? k')%N then erase k m' else (k', v') :: erase k m'
  end.

(** The initializer-list constructor: a later pair with a key already
    present is dropped. *)
Definition emplace (m : list (N * V)) (kv : N * V) : list (N * V) :=
  match find (fst kv) m with
  | Some _ => m
  | None => assign (fst kv) (snd kv) m
  end.

Definition of_initializer_list (l : list (N * V)) : list (N * V) :=
  fold_left emplace l [].

End Bindings.
Arguments count {V} k m.
Arguments find {V} k m.
Arguments assign {V} k v m.
Arguments erase {V} k m.
Arguments of_initializer_list {V} l.
End StdMap.

(** [std::set<std::string>]: texts in increasing byte order, no repeats. *)
Module StringSet.

Definition t : Type := list string.

Fixpoint insert (x : string) (s : t) : t :=
  match s with
  | [] => [x]
  | y :: s' =>
      match String.compare x y with
      | Lt => x :: s
      | Eq => s
      | Gt => y :: insert x s'
      end
  end.

Definition count (x : string) (s : t) : nat :=
  if existsb (String.eqb x) s then 1 else 0.

Definition empty (s : t) : bool :=
  match s with [] => true | _ => false end.

End StringSet.

Definition str_empty (s : string) : bool :=
  match s with EmptyString => true | _ => false end.

(* ------------------------------------------------------------------------- *)
(** ** Table references and the completion context *)

Record TableReference : Type := mkTableReference {
  schema : string;
  table : string;
  alias : string
}.

(** The result of the candidate engine (CodeCompletionCore.h): follow
    tokens per candidate token, context path per candidate rule. *)
Record CandidatesCollection : Type := mkCandidates {
  tokens : list (N * list N);
  rules : list (MySQLParser.RuleIndex * list N)
}.

Record AutoCompletionContext : Type := mkContext {
  completionCandidates : CandidatesCollection;
  referencesStack : list (list TableReference);
  references : list TableReference
}.

(** A default-constructed context. *)
Definition newContext : AutoCompletionContext :=
  mkContext (mkCandidates [] []) [] [].

(** The parser object as the completion code sees it: its token stream, its
    vocabulary, its lexer, and the candidate engine configured over it. *)
Record MySQLParserObject : Type := mkParser {
  getTokenStream : list Token;
  getDisplayName : N -> string;
  getTokenSource : MySQLLexerObject;
  c3_collectCandidates : nat * nat -> CandidatesCollection
}.

(** The body of the source function holds a listener class and comments
    only: the context is left as it is. *)
Definition collectRemainingTableReferences (ctx : AutoCompletionContext)
  : AutoCompletionContext := ctx.

Definition takeReferencesSnapshot (ctx : AutoCompletionContext)
  : AutoCompletionContext :=
  mkContext (completionCandidates ctx) (referencesStack ctx)
    (fold_left
       (fun refs level => fold_left (fun refs entry => refs ++ [entry]) level refs)
       (referencesStack ctx) (references ctx)).

(** The post-processing of the token candidates: NOT2 is carried under NOT. *)
Definition renameNot2 (c : CandidatesCollection) : CandidatesCollection :=
  if 0 <? StdMap.count MySQLLexer.NOT2_SYMBOL (tokens c) then
    match StdMap.find MySQLLexer.NOT2_SYMBOL (tokens c) with
    | Some follow =>
        mkCandidates
          (StdMap.erase MySQLLexer.NOT2_SYMBOL
             (StdMap.assign MySQLLexer.NOT_SYMBOL follow (tokens c)))
          (rules c)
    | None => c
    end
  else c.

Definition collectCandidates (ctx : AutoCompletionContext)
           (parser : MySQLParserObject) (caret : nat * nat) : AutoCompletionContext :=
  let ctx := mkContext (completionCandidates ctx)
                       (referencesStack ctx ++ [[]]) (references ctx) in
  let ctx := mkContext (c3_collectCandidates parser caret)
                       (referencesStack ctx) (references ctx) in
  let ctx := mkContext (renameNot2 (completionCandidates ctx))
                       (referencesStack ctx) (references ctx) in
  fold_left
    (fun ctx ruleEntry =>
       if MySQLParser.is_RuleColumnRef (fst ruleEntry)
       then takeReferencesSnapshot (collectRemainingTableReferences ctx)
       else ctx)
    (rules (completionCandidates ctx)) ctx.

(* ------------------------------------------------------------------------- *)
(** ** Completion sets *)

(** Modelled from the spec: the AC_*_IMAGE macros come from
    mysql-code-completion.h, which is not part of the sources at hand; the
    numbers are stand-ins for pairwise different kinds. *)
Definition AC_KEYWORD_IMAGE : Z := 1.
Definition AC_SCHEMA_IMAGE : Z := 2.
Definition AC_TABLE_IMAGE : Z := 3.
Definition AC_ROUTINE_IMAGE : Z := 4.
Definition AC_FUNCTION_IMAGE : Z := 5.
Definition AC_VIEW_IMAGE : Z := 6.
Definition AC_COLUMN_IMAGE : Z := 7.
Definition AC_ENGINE_IMAGE : Z := 9.
Definition AC_TRIGGER_IMAGE : Z := 10.
Definition AC_LOGFILE_GROUP_IMAGE : Z := 11.
Definition AC_USER_VAR_IMAGE : Z := 12.
Definition AC_SYSTEM_VAR_IMAGE : Z := 13.
Definition AC_TABLESPACE_IMAGE : Z := 14.
Definition AC_EVENT_IMAGE : Z := 15.
Definition AC_CHARSET_IMAGE : Z := 17.
Definition AC_COLLATION_IMAGE : Z := 18.

Definition AcEntry : Type := (Z * string)%type.

(** [CompareAcEntries::operator()]: the kinds are not looked at. *)
Definition CompareAcEntries (lhs rhs : AcEntry) : bool :=
  (base.string_compare (snd lhs) (snd rhs) false <? 0)%Z.

(** [std::set<std::pair<int, std::string>, CompareAcEntries>], as the
    sequence its iterators run through. *)
Definition CompletionSet : Type := list AcEntry.

(** [set.insert]: the new entry goes before the first entry it is less
    than; an entry that is neither less nor greater than a present one is
    not added. *)
Fixpoint set_insert (e : AcEntry) (s : CompletionSet) : CompletionSet :=
  match s with
  | [] => [e]
  | x :: s' =>
      if CompareAcEntries e x then e :: s
      else if CompareAcEntries x e then x :: set_insert e s'
      else s
  end.

(** The completion sets declared at the top of [getCodeCompletionList]. *)
Inductive SetName : Type :=
| schemaEntries | tableEntries | columnEntries | viewEntries
| functionEntries | udfEntries | runtimeFunctionEntries | procedureEntries
| triggerEntries | engineEntries | logfileGroupEntries | tablespaceEntries
| systemVarEntries | keywordEntries | collationEntries | charsetEntries
| eventEntries | userVarEntries | userEntries | indexEntries
| pluginEntries | fkEntries.

Definition SetName_eqb (a b : SetName) : bool :=
  match a, b with
  | schemaEntries, schemaEntries | tableEntries, tableEntries
  | columnEntries, columnEntries | viewEntries, viewEntries
  | functionEntries, functionEntries | udfEntries, udfEntries
  | runtimeFunctionEntries, runtimeFunctionEntries
  | procedureEntries, procedureEntries | triggerEntries, triggerEntries
  | engineEntries, engineEntries | logfileGroupEntries, logfileGroupEntries
  | tablespaceEntries, tablespaceEntries | systemVarEntries, systemVarEntries
  | keywordEntries, keywordEntries | collationEntries, collationEntries
  | charsetEntries, charsetEntries | eventEntries, eventEntries
  | userVarEntries, userVarEntries | userEntries, userEntries
  | indexEntries, indexEntries | pluginEntries, pluginEntries
  | fkEntries, fkEntries => true
  | _, _ => false
  end.

(** The values of all the sets at one program point. *)
Definition Sets : Type := SetName -> CompletionSet.

Definition noEntries : Sets := fun _ => [].

Definition insert (set : SetName) (e : AcEntry) (sets : Sets) : Sets :=
  fun name => if SetName_eqb name set then set_insert e (sets name) else sets name.

(* ------------------------------------------------------------------------- *)
(** ** The object names cache *)

Record MySQLObjectNamesCache : Type := mkCache {
  getMatchingSchemaNames : string -> list string;
  getMatchingTableNames : string -> string -> list string;
  getMatchingViewNames : string -> string -> list string;
  getMatchingColumnNames : string -> string -> string -> list string;
  getMatchingProcedureNames : string -> string -> list string;
  getMatchingFunctionNames : string -> string -> list string;
  getMatchingUdfNames : string -> list string;
  getMatchingTriggerNames : string -> string -> string -> list string;
  getMatchingEvents : string -> string -> list string;
  getMatchingEngines : string -> list string;
  getMatchingLogfileGroups : string -> list string;
  getMatchingTablespaces : string -> list string;
  getMatchingVariables : string -> list string;
  getMatchingCharsets : string -> list string;
  getMatchingCollations : string -> list string
}.

(** [for (auto &name : names) set.insert({kind, name})]. *)
Definition insertNames (set : SetName) (kind : Z) (names : list string)
           (sets : Sets) : Sets :=
  fold_left (fun sets name => insert set (kind, name) sets) names sets.

Definition insertSchemas (cache : MySQLObjectNamesCache) (set : SetName)
           (typedPart : string) (sets : Sets) : Sets :=
  insertNames set AC_SCHEMA_IMAGE (getMatchingSchemaNames cache typedPart) sets.

Definition insertTables (cache : MySQLObjectNamesCache) (set : SetName)
           (schemas : StringSet.t) (typedPart : string) (sets : Sets) : Sets :=
  fold_left
    (fun sets schema =>
       insertNames set AC_TABLE_IMAGE (getMatchingTableNames cache schema typedPart) sets)
    schemas sets.

Definition insertViews (cache : MySQLObjectNamesCache) (set : SetName)
           (schemas : StringSet.t) (typedPart : string) (sets : Sets) : Sets :=
  fold_left
    (fun sets schema =>
       insertNames set AC_VIEW_IMAGE (getMatchingViewNames cache schema typedPart) sets)
    schemas sets.

Definition insertColumns (cache : MySQLObjectNamesCache) (set : SetName)
           (schemas tables : StringSet.t) (typedPart : string) (sets : Sets) : Sets :=
  fold_left
    (fun sets schema =>
       fold_left
         (fun sets table =>
            insertNames set AC_COLUMN_IMAGE
              (getMatchingColumnNames cache schema table typedPart) sets)
         tables sets)
    schemas sets.

(* ------------------------------------------------------------------------- *)
(** ** getCodeCompletionList *)

Section CodeCompletionList.

Import MySQLLexer.
Import MySQLParser.
Local Open Scope string_scope.

(** The static synonyms table.  It is built and never read afterwards. *)
Definition synonyms : list (N * list string) :=
  StdMap.of_initializer_list
    [ (CHAR_SYMBOL, ["CHARACTER"]);
      (NOW_SYMBOL, ["CURRENT_TIMESTAMP"; "LOCALTIME"; "LOCALTIMESTAMP"]);
      (DAY_SYMBOL, ["DAYOFMONTH"]);
      (DECIMAL_SYMBOL, ["DEC"]);
      (DISTINCT_SYMBOL, ["DISTINCTROW"]);
      (CHAR_SYMBOL, ["CHARACTER"]);
      (COLUMNS_SYMBOL, ["FIELDS"]);
      (FLOAT_SYMBOL, ["FLOAT4"]);
      (DOUBLE_SYMBOL, ["FLOAT8"]);
      (INT_SYMBOL, ["INTEGER"; "INT4"]);
      (RELAY_THREAD_SYMBOL, ["IO_THREAD"]);
      (SUBSTRING_SYMBOL, ["MID"]);
      (MID_SYMBOL, ["MEDIUMINT"]);
      (MEDIUMINT_SYMBOL, ["MIDDLEINT"]);
      (NDBCLUSTER_SYMBOL, ["NDB"]);
      (REGEXP_SYMBOL, ["RLIKE"]);
      (DATABASE_SYMBOL, ["SCHEMA"]);
      (DATABASES_SYMBOL, ["SCHEMAS"]);
      (USER_SYMBOL, ["SESSION_USER"]);
      (STD_SYMBOL, ["STDDEV"; "STDDEV"]);
      (SUBSTRING_SYMBOL, ["SUBSTR"]);
      (VARCHAR_SYMBOL, ["VARCHARACTER"]);
      (VARIANCE_SYMBOL, ["VAR_POP"]);
      (TINYINT_SYMBOL, ["INT1"]);
      (SMALLINT_SYMBOL, ["INT2"]);
      (MEDIUMINT_SYMBOL, ["INT3"]);
      (BIGINT_SYMBOL, ["INT8"]);
      (FRAC_SECOND_SYMBOL, ["SQL_TSI_FRAC_SECOND"]);
      (SECOND_SYMBOL, ["SQL_TSI_SECOND"]);
      (MINUTE_SYMBOL, ["SQL_TSI_MINUTE"]);
      (HOUR_SYMBOL, ["SQL_TSI_HOUR"]);
      (DAY_SYMBOL, ["SQL_TSI_DAY"]);
      (WEEK_SYMBOL, ["SQL_TSI_WEEK"]);
      (MONTH_SYMBOL, ["SQL_TSI_MONTH"]);
      (QUARTER_SYMBOL, ["SQL_TSI_QUARTER"]);
      (YEAR_SYMBOL, ["SQL_TSI_YEAR"]) ].

(** [s.rfind (pat) != std::string::npos]. *)
Fixpoint rfind_found (pat s : string) : bool :=
  match s with
  | EmptyString => String.prefix pat EmptyString
  | String _ s' => String.prefix pat s || rfind_found pat s'
  end.

(** The display name of a token with the [_SYMBOL] part cut off, or
    unquoted when there is none. *)
Definition displayEntry (vocabulary : N -> string) (token : N) : string :=
  let entry := vocabulary token in
  if rfind_found "_SYMBOL" entry
  then substring 0 (String.length entry - 7) entry
  else base.unquote entry.

(** The text put together for a candidate that is not a function call. *)
Definition keywordText (vocabulary : N -> string) (uppercaseKeywords : bool)
           (token : N) (follow : list N) : string :=
  let entry :=
    fold_left
      (fun entry token =>
         String.append entry (String.append " " (displayEntry vocabulary token)))
      follow (displayEntry vocabulary token) in
  if negb uppercaseKeywords then base.tolower entry else entry.

(** One round of the loop over [context.completionCandidates.tokens]. *)
Definition tokenCandidate (vocabulary : N -> string) (uppercaseKeywords : bool)
           (sets : Sets) (candidate : N * list N) : Sets :=
  let entry := displayEntry vocabulary (fst candidate) in
  let '(list, entry) :=
    match snd candidate with
    | [] => (0, entry)
    | first :: _ =>
        if (first =? OPEN_PAR_SYMBOL)%N then (1, entry)
        else (0, fold_left
                   (fun entry token =>
                      String.append entry
                        (String.append " " (displayEntry vocabulary token)))
                   (snd candidate) entry)
    end in
  match list with
  | 1 =>
      insert runtimeFunctionEntries
        (AC_FUNCTION_IMAGE, String.append (base.tolower entry) "()") sets
  | _ =>
      let entry := if negb uppercaseKeywords then base.tolower entry else entry in
      insert keywordEntries (AC_KEYWORD_IMAGE, entry) sets
  end.

(** The alias look-up of the column branch: the loop stops at the first
    reference whose alias is the typed table. *)
Fixpoint insertAliasedTable (table0 : string) (refs : list TableReference)
         (tables : StringSet.t) : StringSet.t :=
  match refs with
  | [] => tables
  | r :: rest =>
      if base.same_string table0 (alias r)
      then StringSet.insert (table r) tables
      else insertAliasedTable table0 rest tables
  end.

(** The [tables] set of the column branch. *)
Definition columnTables (table0 : string) (refs : list TableReference)
           (candidate : RuleIndex) : StringSet.t :=
  let tables : StringSet.t := [] in
  if negb (str_empty table0) then
    let tables := StringSet.insert table0 tables in
    insertAliasedTable table0 refs tables
  else if negb (match refs with [] => true | _ => false end)
          && is_RuleColumnRef candidate then
    fold_left (fun tables r => StringSet.insert (table r) tables) refs tables
  else tables.

(** The [schemas] set of the column branch, before [ShowColumns] is looked at. *)
Definition columnSchemas (schema0 defaultSchema : string)
           (refs : list TableReference) : StringSet.t :=
  let schemas : StringSet.t := [] in
  let schemas :=
    if negb (str_empty schema0) then StringSet.insert schema0 schemas
    else
      match refs with
      | [] => schemas
      | _ =>
          fold_left
            (fun schemas r =>
               if negb (str_empty (schema r))
               then StringSet.insert (schema r) schemas else schemas)
            refs schemas
      end in
  if StringSet.empty schemas then StringSet.insert defaultSchema schemas else schemas.

(** The columns part of the column branch ([flags & ShowColumns]). *)
Definition showColumns (cache : MySQLObjectNamesCache) (queryType : MySQLQueryType)
           (defaultSchema schema0 table0 : string) (refs : list TableReference)
           (candidate : RuleIndex) (schemas : StringSet.t) (sets : Sets) : Sets :=
  let schemas :=
    if String.eqb schema0 table0 then StringSet.insert defaultSchema schemas
    else schemas in
  let tables := columnTables table0 refs candidate in
  let sets :=
    if negb (StringSet.empty tables)
    then insertColumns cache columnEntries schemas tables EmptyString sets
    else sets in
  match refs with
  | first :: _ =>
      if MySQLQueryType_eqb queryType QtCreateTrigger
         && (base.same_string table0 "old" || base.same_string table0 "new")
      then
        let tables := StringSet.insert (table first) [] in
        insertColumns cache columnEntries schemas tables EmptyString sets
      else sets
  | [] => sets
  end.

(** The branch for [RuleTableWild], [RuleColumnRef], [RuleColumnInternalRef]. *)
Definition columnCandidate (cache : MySQLObjectNamesCache) (lexer : MySQLLexerObject)
           (queryType : MySQLQueryType) (defaultSchema : string)
           (refs : list TableReference) (candidate : RuleIndex)
           (scanner : Scanner) (sets : Sets) : Scanner * Sets :=
  let '(flags, schema0, table0, scanner) := determineSchemaTableQualifier scanner lexer in
  let sets :=
    if hasFlag flags ShowSchemas
    then insertSchemas cache schemaEntries EmptyString sets else sets in
  let schemas := columnSchemas schema0 defaultSchema refs in
  let sets :=
    if hasFlag flags ShowTables then
      let sets := insertTables cache tableEntries schemas EmptyString sets in
      if is_RuleColumnRef candidate then
        let sets := insertViews cache viewEntries schemas EmptyString sets in
        fold_left
          (fun sets reference =>
             if (str_empty schema0 && str_empty (schema reference))
                || (0 <? StringSet.count (schema reference) schemas)%nat
             then insert tableEntries
                    (AC_TABLE_IMAGE,
                     if str_empty (alias reference)
                     then table reference else alias reference) sets
             else sets)
          refs sets
      else sets
    else sets in
  let sets :=
    if hasFlag flags ShowColumns
    then showColumns cache queryType defaultSchema schema0 table0 refs candidate
           schemas sets
    else sets in
  (scanner, sets).

(** The line after [caretLine] as [size_t]: the sum wraps around at 2^64. *)
Definition size_t_succ (n : nat) : nat :=
  N.to_nat ((N.of_nat n + 1) mod 18446744073709551616)%N.

(** The branches that share the two-part analysis: schemas for the first
    part, the named objects of the resolved schema for the second. *)
Definition qualifiedCandidate (cache : MySQLObjectNamesCache) (lexer : MySQLLexerObject)
           (defaultSchema : string) (caretOffset : nat)
           (second : string -> Sets -> Sets)
           (scanner : Scanner) (sets : Sets) : Scanner * Sets :=
  let '(flags, qualifier, scanner) := determineQualifier scanner lexer caretOffset in
  let sets :=
    if hasFlag flags ShowFirst
    then insertSchemas cache schemaEntries EmptyString sets else sets in
  let sets :=
    if hasFlag flags ShowSecond then
      let qualifier := if str_empty qualifier then defaultSchema else qualifier in
      second qualifier sets
    else sets in
  (scanner, sets).

(** The [switch (candidate.first)] of the loop over the rule candidates. *)
Definition ruleSwitch (cache : MySQLObjectNamesCache) (lexer : MySQLLexerObject)
           (queryType : MySQLQueryType) (defaultSchema functionNames : string)
           (caretOffset : nat) (refs : list TableReference)
           (candidate : RuleIndex) (scanner : Scanner) (sets : Sets) : Scanner * Sets :=
  match candidate with
  | RuleRuntimeFunctionCall =>
      let functions :=
        base.split_by_set functionNames
          [ascii_of_nat 32; ascii_of_nat 9; ascii_of_nat 10] in
      (scanner,
       fold_left
         (fun sets function =>
            insert runtimeFunctionEntries
              (AC_FUNCTION_IMAGE, String.append function "()") sets)
         functions sets)

  | RuleFunctionRef | RuleFunctionCall =>
      let '(flags, qualifier, scanner) := determineQualifier scanner lexer caretOffset in
      let sets :=
        if str_empty qualifier then
          fold_left
            (fun sets function =>
               insert runtimeFunctionEntries
                 (AC_FUNCTION_IMAGE, String.append function "()") sets)
            (getMatchingUdfNames cache EmptyString) sets
        else sets in
      let sets :=
        if hasFlag flags ShowFirst
        then insertSchemas cache schemaEntries EmptyString sets else sets in
      let sets :=
        if hasFlag flags ShowSecond then
          let qualifier := if str_empty qualifier then defaultSchema else qualifier in
          insertNames functionEntries AC_ROUTINE_IMAGE
            (getMatchingFunctionNames cache qualifier EmptyString) sets
        else sets in
      (scanner, sets)

  | RuleEngineRef =>
      (scanner,
       insertNames engineEntries AC_ENGINE_IMAGE
         (getMatchingEngines cache EmptyString) sets)

  | RuleSchemaRef =>
      (scanner, insertSchemas cache schemaEntries EmptyString sets)

  | RuleProcedureRef =>
      qualifiedCandidate cache lexer defaultSchema caretOffset
        (fun qualifier sets =>
           insertNames procedureEntries AC_ROUTINE_IMAGE
             (getMatchingProcedureNames cache qualifier EmptyString) sets)
        scanner sets

  | RuleTableRefWithWildcard =>
      let '(flags, schema0, table0, scanner) :=
        determineSchemaTableQualifier scanner lexer in
      let sets :=
        if hasFlag flags ShowSchemas
        then insertSchemas cache schemaEntries EmptyString sets else sets in
      let schemas :=
        StringSet.insert (if str_empty schema0 then defaultSchema else schema0) [] in
      let sets :=
        if hasFlag flags ShowTables then
          let sets := insertTables cache tableEntries schemas EmptyString sets in
          insertViews cache viewEntries schemas EmptyString sets
        else sets in
      (scanner, sets)

  | RuleTableRef | RuleFilterTableRef | RuleTableRefNoDb =>
      qualifiedCandidate cache lexer defaultSchema caretOffset
        (fun qualifier sets =>
           let schemas := StringSet.insert qualifier [] in
           let sets := insertTables cache tableEntries schemas EmptyString sets in
           insertViews cache viewEntries schemas EmptyString sets)
        scanner sets

  | RuleTableWild | RuleColumnRef | RuleColumnInternalRef =>
      columnCandidate cache lexer queryType defaultSchema refs candidate scanner sets

  | RuleTriggerRef =>
      let '(flags, qualifier, scanner) := determineQualifier scanner lexer caretOffset in
      let schemas := StringSet.insert defaultSchema [] in
      let sets :=
        if hasFlag flags ShowFirst
        then insertTables cache schemaEntries schemas EmptyString sets else sets in
      let sets :=
        if hasFlag flags ShowSecond
        then insertNames triggerEntries AC_TRIGGER_IMAGE
               (getMatchingTriggerNames cache defaultSchema qualifier EmptyString) sets
        else sets in
      (scanner, sets)

  | RuleViewRef =>
      qualifiedCandidate cache lexer defaultSchema caretOffset
        (fun qualifier sets =>
           let schemas := StringSet.insert qualifier [] in
           insertViews cache viewEntries schemas EmptyString sets)
        scanner sets

  | RuleLogfileGroupRef =>
      (scanner,
       insertNames logfileGroupEntries AC_LOGFILE_GROUP_IMAGE
         (getMatchingLogfileGroups cache EmptyString) sets)

  | RuleTablespaceRef =>
      (scanner,
       insertNames tablespaceEntries AC_TABLESPACE_IMAGE
         (getMatchingTablespaces cache EmptyString) sets)

  | RuleUserVariable =>
      (scanner, insert userVarEntries (AC_USER_VAR_IMAGE, "<user variable>") sets)

  | RuleLabelRef =>
      (scanner, insert userVarEntries (AC_USER_VAR_IMAGE, "<block labels>") sets)

  | RuleSystemVariable =>
      (scanner,
       insertNames systemVarEntries AC_SYSTEM_VAR_IMAGE
         (getMatchingVariables cache EmptyString) sets)

  | RuleCharsetName =>
      (scanner,
       insertNames charsetEntries AC_CHARSET_IMAGE
         (getMatchingCharsets cache EmptyString) sets)

  | RuleCollationName =>
      (scanner,
       insertNames collationEntries AC_COLLATION_IMAGE
         (getMatchingCollations cache EmptyString) sets)

  | RuleEventRef =>
      qualifiedCandidate cache lexer defaultSchema caretOffset
        (fun qualifier sets =>
           insertNames eventEntries AC_EVENT_IMAGE
             (getMatchingEvents cache qualifier EmptyString) sets)
        scanner sets

  | _ => (scanner, sets)
  end.

(** One round of the loop over [context.completionCandidates.rules]: the
    scanner goes back to the caret, which is saved again, then the switch. *)
Definition ruleCandidate (cache : MySQLObjectNamesCache) (lexer : MySQLLexerObject)
           (queryType : MySQLQueryType) (defaultSchema functionNames : string)
           (caretOffset : nat) (refs : list TableReference)
           (state : Scanner * Sets) (candidate : RuleIndex * list N) : Scanner * Sets :=
  let scanner := ScannerOps.pop (fst state) in
  let scanner := ScannerOps.push scanner in
  ruleSwitch cache lexer queryType defaultSchema functionNames caretOffset refs
    (fst candidate) scanner (snd state).

(** The sets the function works on once both loops are through. *)
Definition collectedSets (caretLine caretOffset : nat) (defaultSchema : string)
           (uppercaseKeywords : bool) (parser : MySQLParserObject)
           (functionNames : string) (cache : MySQLObjectNamesCache) : Sets :=
  let context := collectCandidates newContext parser (caretOffset, size_t_succ caretLine) in
  let scanner := mkScanner (getTokenStream parser) 0 [] in
  let lexer := getTokenSource parser in
  let queryType := determineQueryType lexer in
  let vocabulary := getDisplayName parser in
  let scanner := ScannerOps.advanceToPosition scanner (size_t_succ caretLine) caretOffset in
  let scanner := ScannerOps.push scanner in
  let sets :=
    fold_left (tokenCandidate vocabulary uppercaseKeywords)
      (tokens (completionCandidates context)) noEntries in
  let '(scanner, sets) :=
    fold_left
      (ruleCandidate cache lexer queryType defaultSchema functionNames caretOffset
         (references context))
      (rules (completionCandidates context)) (scanner, sets) in
  let scanner := ScannerOps.pop scanner in
  sets.

(** The back-inserter copies at the end of the function. *)
Definition emit (sets : Sets) : list AcEntry :=
  let result : list AcEntry := [] in
  let result := (result ++ sets keywordEntries)%list in
  let result := (result ++ sets columnEntries)%list in
  let result := (result ++ sets tableEntries)%list in
  let result := (result ++ sets viewEntries)%list in
  let result := (result ++ sets schemaEntries)%list in
  let result := (result ++ sets functionEntries)%list in
  let result := (result ++ sets procedureEntries)%list in
  let result := (result ++ sets triggerEntries)%list in
  let result := (result ++ sets indexEntries)%list in
  let result := (result ++ sets eventEntries)%list in
  let result := (result ++ sets userEntries)%list in
  let result := (result ++ sets engineEntries)%list in
  let result := (result ++ sets pluginEntries)%list in
  let result := (result ++ sets logfileGroupEntries)%list in
  let result := (result ++ sets tablespaceEntries)%list in
  let result := (result ++ sets charsetEntries)%list in
  let result := (result ++ sets collationEntries)%list in
  let result := (result ++ sets userVarEntries)%list in
  let result := (result ++ sets runtimeFunctionEntries)%list in
  let result := (result ++ sets systemVarEntries)%list in
  result.

Definition getCodeCompletionList (caretLine caretOffset : nat) (defaultSchema : string)
           (uppercaseKeywords : bool) (parser : MySQLParserObject)
           (functionNames : string) (cache : MySQLObjectNamesCache) : list AcEntry :=
  emit (collectedSets caretLine caretOffset defaultSchema uppercaseKeywords parser
          functionNames cache).

End CodeCompletionList.

(* ------------------------------------------------------------------------- *)
(** ** Sample objects used to run the functions *)

Module Samples.
Import MySQLLexer.
Import MySQLParser.
Local Open Scope string_scope.

Definition lexer : MySQLLexerObject :=
  mkLexer (fun t => (t =? IDENTIFIER)%N || (t =? BACK_TICK_QUOTED_ID)%N) QtUnknown.

Definition vocabulary (token : N) : string :=
  if (token =? NOW_SYMBOL)%N then "NOW_SYMBOL"
  else if (token =? NOT_SYMBOL)%N then "NOT_SYMBOL"
  else if (token =? NOT2_SYMBOL)%N then "NOT2_SYMBOL"
  else if (token =? DISTINCT_SYMBOL)%N then "DISTINCT_SYMBOL"
  else if (token =? OPEN_PAR_SYMBOL)%N then "'('"
  else "IDENTIFIER".

Definition word (type : N) (text : string) (column : nat) : Token :=
  mkToken type 0 text 1 column.

Definition blank (column : nat) : Token :=
  mkToken WHITESPACE 99 " " 1 column.

Definition eof (column : nat) : Token :=
  mkToken EOF 0 "<EOF>" 1 column.

(** A cache over one schema [s] with the tables [t1 (a, b)] and [t2 (c)],
    a stored function [f] and a stored procedure [f]. *)
Definition cache : MySQLObjectNamesCache :=
  mkCache
    (fun _ => ["s"])
    (fun schema _ => if String.eqb schema "s" then ["t1"; "t2"] else [])
    (fun _ _ => [])
    (fun schema table _ =>
       if String.eqb schema "s" && String.eqb table "t1" then ["a"; "b"]
       else if String.eqb schema "s" && String.eqb table "t2" then ["c"]
       else [])
    (fun schema _ => if String.eqb schema "s" then ["f"] else [])
    (fun schema _ => if String.eqb schema "s" then ["f"] else [])
    (fun _ => [])
    (fun _ _ _ => [])
    (fun _ _ => [])
    (fun _ => [])
    (fun _ => [])
    (fun _ => [])
    (fun _ => [])
    (fun _ => [])
    (fun _ => []).

(** [SELECT NOW^]: the engine reports the NOW keyword. *)
Definition selectNow : MySQLParserObject :=
  mkParser
    [word SELECT_SYMBOL "SELECT" 0; blank 6; word NOW_SYMBOL "NOW" 7; eof 10]
    vocabulary lexer
    (fun _ => mkCandidates [(NOW_SYMBOL, [])] []).

(** [SELECT ^ FROM t1]: the engine reports DISTINCT and a column reference. *)
Definition selectFrom : MySQLParserObject :=
  mkParser
    [word SELECT_SYMBOL "SELECT" 0; blank 6; word FROM_SYMBOL "FROM" 8; blank 12;
     word IDENTIFIER "t1" 13; eof 15]
    vocabulary lexer
    (fun _ => mkCandidates [(DISTINCT_SYMBOL, [])] [(RuleColumnRef, [])]).

(** [SELECT a FROM t1 WHERE ^]: the engine reports NOT2 and a column reference. *)
Definition selectWhere : MySQLParserObject :=
  mkParser
    [word SELECT_SYMBOL "SELECT" 0; blank 6; word IDENTIFIER "a" 7; blank 8;
     word FROM_SYMBOL "FROM" 9; blank 13; word IDENTIFIER "t1" 14; blank 16;
     word IDENTIFIER "WHERE" 17; blank 22; eof 23]
    vocabulary lexer
    (fun _ => mkCandidates [(NOT2_SYMBOL, [])] [(RuleColumnRef, [])]).

(** A candidate collection with a function and a procedure reference. *)
Definition routines : MySQLParserObject :=
  mkParser [eof 0] vocabulary lexer
    (fun _ => mkCandidates [] [(RuleFunctionRef, []); (RuleProcedureRef, [])]).


(** [s1.t1.^]: a three part identifier up to the second dot. *)
Definition dotted : Scanner :=
  mkScanner
    [word SELECT_SYMBOL "SELECT" 0; blank 6; word IDENTIFIER "s1" 7;
     word DOT_SYMBOL "." 9; word BACK_TICK_QUOTED_ID "`t1`" 10;
     word DOT_SYMBOL "." 14; eof 15]
    6 [].

(** The engine reports a table reference and a trigger reference. *)
Definition tablesAndTriggers : MySQLParserObject :=
  mkParser [eof 0] vocabulary lexer
    (fun _ => mkCandidates [] [(RuleTableRef, []); (RuleTriggerRef, [])]).

(** The engine reports NOT2 followed by the opening parenthesis. *)
Definition notCall : MySQLParserObject :=
  mkParser [eof 0] vocabulary lexer
    (fun _ => mkCandidates [(NOT2_SYMBOL, [OPEN_PAR_SYMBOL])] []).

(** [a.^.]: the caret stands between two dots. *)
Definition doubleDot : list Token :=
  [word IDENTIFIER "a" 0; word DOT_SYMBOL "." 1; word DOT_SYMBOL "." 2; eof 3].

End Samples.

(* ------------------------------------------------------------------------- *)
(** ** Notions used to state the properties *)



(** The ordering of a completion set in the words of the specification:
    by text without regard to case, ties broken by kind. *)
Definition CompareAcEntries_spec (lhs rhs : AcEntry) : bool :=
  (base.string_compare (snd lhs) (snd rhs) false <? 0)%Z
  || ((base.string_compare (snd lhs) (snd rhs) false =? 0)%Z
      && (fst lhs <? fst rhs)%Z).

(** Texts that are equal without regard to case. *)
Definition sameText (a b : string) : Prop :=
  base.string_compare a b false = 0%Z.

(** Entries in strictly increasing order of their texts. *)
Definition textLess (a b : AcEntry) : Prop := CompareAcEntries a b = true.

(** A list without two entries of one kind and one text up to case. *)
Definition noDuplicateEntries (l : list AcEntry) : Prop :=
  forall i j d, i < j < List.length l ->
    ~ (fst (nth i l d) = fst (nth j l d)
       /\ sameText (snd (nth i l d)) (snd (nth j l d))).











(** Every set in strictly increasing order of its texts. *)
Definition allSorted (sets : Sets) : Prop :=
  forall name, StronglySorted textLess (sets name).

(** A candidate whose first follow token is the opening parenthesis is
    listed as a function call. *)
Definition followedByCall (follow : list N) : bool :=
  match follow with
  | first :: _ => (first =? MySQLLexer.OPEN_PAR_SYMBOL)%N
  | [] => false
  end.

(** The groups of the result, in the order they are copied. *)
Definition emissionOrder : list SetName :=
  [keywordEntries; columnEntries; tableEntries; viewEntries; schemaEntries;
   functionEntries; procedureEntries; triggerEntries; indexEntries; eventEntries;
   userEntries; engineEntries; pluginEntries; logfileGroupEntries;
   tablespaceEntries; charsetEntries; collationEntries; userVarEntries;
   runtimeFunctionEntries; systemVarEntries].

(** The scanner as the rule loop finds it: moved to the caret, with that
    place saved on its stack. *)
Definition caretScanner (parser : MySQLParserObject) (caretLine caretOffset : nat)
  : Scanner :=
  ScannerOps.push
    (ScannerOps.advanceToPosition (mkScanner (getTokenStream parser) 0 [])
       (size_t_succ caretLine) caretOffset).

(** The rules for which the switch has no case. *)
Definition ignoredRule (r : MySQLParser.RuleIndex) : bool :=
  match r with
  | MySQLParser.RuleServerRef | MySQLParser.RuleParameterName
  | MySQLParser.RuleProcedureName | MySQLParser.RuleIdentifier
  | MySQLParser.RuleLabelIdentifier | MySQLParser.RuleOther _ => true
  | _ => false
  end.

(** A parser whose candidate engine reports the same candidates but for
    the rules without a case in the switch. *)
Definition dropIgnored (parser : MySQLParserObject) : MySQLParserObject :=
  mkParser (getTokenStream parser) (getDisplayName parser) (getTokenSource parser)
    (fun caret =>
       let c := c3_collectCandidates parser caret in
       mkCandidates (tokens c)
         (filter (fun r => negb (ignoredRule (fst r))) (rules c))).

(** The rules whose case is one cache query put into one set. *)
Definition plainRule (cache : MySQLObjectNamesCache) (r : MySQLParser.RuleIndex)
  : option (SetName * Z * list string) :=
  match r with
  | MySQLParser.RuleSchemaRef =>
      Some (schemaEntries, AC_SCHEMA_IMAGE, getMatchingSchemaNames cache EmptyString)
  | MySQLParser.RuleEngineRef =>
      Some (engineEntries, AC_ENGINE_IMAGE, getMatchingEngines cache EmptyString)
  | MySQLParser.RuleLogfileGroupRef =>
      Some (logfileGroupEntries, AC_LOGFILE_GROUP_IMAGE,
            getMatchingLogfileGroups cache EmptyString)
  | MySQLParser.RuleTablespaceRef =>
      Some (tablespaceEntries, AC_TABLESPACE_IMAGE,
            getMatchingTablespaces cache EmptyString)
  | MySQLParser.RuleSystemVariable =>
      Some (systemVarEntries, AC_SYSTEM_VAR_IMAGE,
            getMatchingVariables cache EmptyString)
  | MySQLParser.RuleCharsetName =>
      Some (charsetEntries, AC_CHARSET_IMAGE, getMatchingCharsets cache EmptyString)
  | MySQLParser.RuleCollationName =>
      Some (collationEntries, AC_COLLATION_IMAGE,
            getMatchingCollations cache EmptyString)
  | _ => None
  end.

(** Where an entry of a set can come from: a token candidate, a name the
    cache gave, one of the built-in function names, a table reference, or
    one of the two fixed texts.  A table stands in the schema set only when
    a trigger reference is among the reported rules. *)
Inductive origin (toks : list (N * list N)) (vocabulary : N -> string)
          (uppercaseKeywords : bool) (cache : MySQLObjectNamesCache)
          (functionNames : string) (refs : list TableReference)
          (reported : list MySQLParser.RuleIndex)
  : SetName -> AcEntry -> Prop :=
| origin_keyword tok follow :
    In (tok, follow) toks -> followedByCall follow = false ->
    origin toks vocabulary uppercaseKeywords cache functionNames refs reported
      keywordEntries
      (AC_KEYWORD_IMAGE, keywordText vocabulary uppercaseKeywords tok follow)
| origin_call tok follow :
    In (tok, follow) toks -> followedByCall follow = true ->
    origin toks vocabulary uppercaseKeywords cache functionNames refs reported
      runtimeFunctionEntries
      (AC_FUNCTION_IMAGE,
       String.append (base.tolower (displayEntry vocabulary tok)) "()")
| origin_builtin f :
    In f (base.split_by_set functionNames
            [ascii_of_nat 32; ascii_of_nat 9; ascii_of_nat 10]) ->
    origin toks vocabulary uppercaseKeywords cache functionNames refs reported
      runtimeFunctionEntries (AC_FUNCTION_IMAGE, String.append f "()")
| origin_udf f :
    In f (getMatchingUdfNames cache EmptyString) ->
    origin toks vocabulary uppercaseKeywords cache functionNames refs reported
      runtimeFunctionEntries (AC_FUNCTION_IMAGE, String.append f "()")
| origin_schema n :
    In n (getMatchingSchemaNames cache EmptyString) ->
    origin toks vocabulary uppercaseKeywords cache functionNames refs reported
      schemaEntries (AC_SCHEMA_IMAGE, n)
| origin_trigger_table s n :
    In MySQLParser.RuleTriggerRef reported ->
    In n (getMatchingTableNames cache s EmptyString) ->
    origin toks vocabulary uppercaseKeywords cache functionNames refs reported
      schemaEntries (AC_TABLE_IMAGE, n)
| origin_table s n :
    In n (getMatchingTableNames cache s EmptyString) ->
    origin toks vocabulary uppercaseKeywords cache functionNames refs reported
      tableEntries (AC_TABLE_IMAGE, n)
| origin_reference r :
    In r refs ->
    origin toks vocabulary uppercaseKeywords cache functionNames refs reported
      tableEntries
      (AC_TABLE_IMAGE, if str_empty (alias r) then table r else alias r)
| origin_view s n :
    In n (getMatchingViewNames cache s EmptyString) ->
    origin toks vocabulary uppercaseKeywords cache functionNames refs reported
      viewEntries (AC_VIEW_IMAGE, n)
| origin_column s t n :
    In n (getMatchingColumnNames cache s t EmptyString) ->
    origin toks vocabulary uppercaseKeywords cache functionNames refs reported
      columnEntries (AC_COLUMN_IMAGE, n)
| origin_function s n :
    In n (getMatchingFunctionNames cache s EmptyString) ->
    origin toks vocabulary uppercaseKeywords cache functionNames refs reported
      functionEntries (AC_ROUTINE_IMAGE, n)
| origin_procedure s n :
    In n (getMatchingProcedureNames cache s EmptyString) ->
    origin toks vocabulary uppercaseKeywords cache functionNames refs reported
      procedureEntries (AC_ROUTINE_IMAGE, n)
| origin_trigger s t n :
    In n (getMatchingTriggerNames cache s t EmptyString) ->
    origin toks vocabulary uppercaseKeywords cache functionNames refs reported
      triggerEntries (AC_TRIGGER_IMAGE, n)
| origin_event s n :
    In n (getMatchingEvents cache s EmptyString) ->
    origin toks vocabulary uppercaseKeywords cache functionNames refs reported
      eventEntries (AC_EVENT_IMAGE, n)
| origin_engine n :
    In n (getMatchingEngines cache EmptyString) ->
    origin toks vocabulary uppercaseKeywords cache functionNames refs reported
      engineEntries (AC_ENGINE_IMAGE, n)
| origin_logfile_group n :
    In n (getMatchingLogfileGroups cache EmptyString) ->
    origin toks vocabulary uppercaseKeywords cache functionNames refs reported
      logfileGroupEntries (AC_LOGFILE_GROUP_IMAGE, n)
| origin_tablespace n :
    In n (getMatchingTablespaces cache EmptyString) ->
    origin toks vocabulary uppercaseKeywords cache functionNames refs reported
      tablespaceEntries (AC_TABLESPACE_IMAGE, n)
| origin_variable n :
    In n (getMatchingVariables cache EmptyString) ->
    origin toks vocabulary uppercaseKeywords cache functionNames refs reported
      systemVarEntries (AC_SYSTEM_VAR_IMAGE, n)
| origin_charset n :
    In n (getMatchingCharsets cache EmptyString) ->
    origin toks vocabulary uppercaseKeywords cache functionNames refs reported
      charsetEntries (AC_CHARSET_IMAGE, n)
| origin_collation n :
    In n (getMatchingCollations cache EmptyString) ->
    origin toks vocabulary uppercaseKeywords cache functionNames refs reported
      collationEntries (AC_COLLATION_IMAGE, n)
| origin_user_variable :
    origin toks vocabulary uppercaseKeywords cache functionNames refs reported
      userVarEntries (AC_USER_VAR_IMAGE, "<user variable>"%string)
| origin_block_labels :
    origin toks vocabulary uppercaseKeywords cache functionNames refs reported
      userVarEntries (AC_USER_VAR_IMAGE, "<block labels>"%string).

(** The kinds found in each set. *)
Definition kindsOf (set : SetName) : list Z :=
  match set with
  | keywordEntries => [AC_KEYWORD_IMAGE]
  | columnEntries => [AC_COLUMN_IMAGE]
  | tableEntries => [AC_TABLE_IMAGE]
  | viewEntries => [AC_VIEW_IMAGE]
  | schemaEntries => [AC_SCHEMA_IMAGE; AC_TABLE_IMAGE]
  | functionEntries | procedureEntries => [AC_ROUTINE_IMAGE]
  | triggerEntries => [AC_TRIGGER_IMAGE]
  | eventEntries => [AC_EVENT_IMAGE]
  | engineEntries => [AC_ENGINE_IMAGE]
  | logfileGroupEntries => [AC_LOGFILE_GROUP_IMAGE]
  | tablespaceEntries => [AC_TABLESPACE_IMAGE]
  | charsetEntries => [AC_CHARSET_IMAGE]
  | collationEntries => [AC_COLLATION_IMAGE]
  | userVarEntries => [AC_USER_VAR_IMAGE]
  | runtimeFunctionEntries => [AC_FUNCTION_IMAGE]
  | systemVarEntries => [AC_SYSTEM_VAR_IMAGE]
  | udfEntries | userEntries | indexEntries | pluginEntries | fkEntries => []
  end.

(** The set a token candidate goes to, and the entry made of it. *)
Definition candidateSet (candidate : N * list N) : SetName :=
  if followedByCall (snd candidate) then runtimeFunctionEntries else keywordEntries.

Definition candidateEntry (vocabulary : N -> string) (uppercaseKeywords : bool)
           (candidate : N * list N) : AcEntry :=
  if followedByCall (snd candidate)
  then (AC_FUNCTION_IMAGE,
        String.append (base.tolower (displayEntry vocabulary (fst candidate))) "()")
  else (AC_KEYWORD_IMAGE,
        keywordText vocabulary uppercaseKeywords (fst candidate) (snd candidate)).

(** The object names cache with its column query answering nothing. *)
Definition withoutColumns (cache : MySQLObjectNamesCache) : MySQLObjectNamesCache :=
  mkCache
    (getMatchingSchemaNames cache) (getMatchingTableNames cache)
    (getMatchingViewNames cache) (fun _ _ _ => [])
    (getMatchingProcedureNames cache) (getMatchingFunctionNames cache)
    (getMatchingUdfNames cache) (getMatchingTriggerNames cache)
    (getMatchingEvents cache) (getMatchingEngines cache)
    (getMatchingLogfileGroups cache) (getMatchingTablespaces cache)
    (getMatchingVariables cache) (getMatchingCharsets cache)
    (getMatchingCollations cache).

(** The rules handled by the column branch. *)
Definition columnRule (r : MySQLParser.RuleIndex) : bool :=
  match r with
  | MySQLParser.RuleTableWild | MySQLParser.RuleColumnRef
  | MySQLParser.RuleColumnInternalRef => true
  | _ => false
  end.

(** References with the same schema, table and alias up to case. *)
Definition sameReference (a b : TableReference) : Prop :=
  sameText (schema a) (schema b) /\ sameText (table a) (table b)
  /\ sameText (alias a) (alias b).

(** A list of references without two that are the same up to case. *)
Definition noDuplicateReferences (l : list TableReference) : Prop :=
  forall i j d, i < j < List.length l -> ~ sameReference (nth i l d) (nth j l d).

(** The kinds found in each set when no trigger reference is reported. *)
Definition ownKinds (set : SetName) : list Z :=
  match set with
  | schemaEntries => [AC_SCHEMA_IMAGE]
  | _ => kindsOf set
  end.

(** The place of a kind in the order of the result: keywords, columns,
    tables, views, schemas, routines, triggers, events, engines, logfile
    groups, tablespaces, charsets, collations, user variables, runtime
    functions, system variables. *)
Definition kindRank (kind : Z) : nat :=
  if (kind =? AC_KEYWORD_IMAGE)%Z then 0
  else if (kind =? AC_COLUMN_IMAGE)%Z then 1
  else if (kind =? AC_TABLE_IMAGE)%Z then 2
  else if (kind =? AC_VIEW_IMAGE)%Z then 3
  else if (kind =? AC_SCHEMA_IMAGE)%Z then 4
  else if (kind =? AC_ROUTINE_IMAGE)%Z then 5
  else if (kind =? AC_TRIGGER_IMAGE)%Z then 6
  else if (kind =? AC_EVENT_IMAGE)%Z then 7
  else if (kind =? AC_ENGINE_IMAGE)%Z then 8
  else if (kind =? AC_LOGFILE_GROUP_IMAGE)%Z then 9
  else if (kind =? AC_TABLESPACE_IMAGE)%Z then 10
  else if (kind =? AC_CHARSET_IMAGE)%Z then 11
  else if (kind =? AC_COLLATION_IMAGE)%Z then 12
  else if (kind =? AC_USER_VAR_IMAGE)%Z then 13
  else if (kind =? AC_FUNCTION_IMAGE)%Z then 14
  else if (kind =? AC_SYSTEM_VAR_IMAGE)%Z then 15
  else 16.

(** The place of a set in that order; the sets that stay empty stand where
    they are copied. *)
Definition blockRank (set : SetName) : nat :=
  match set with
  | keywordEntries => 0
  | columnEntries => 1
  | tableEntries => 2
  | viewEntries => 3
  | schemaEntries => 4
  | functionEntries | procedureEntries => 5
  | triggerEntries | indexEntries => 6
  | eventEntries | userEntries => 7
  | engineEntries | pluginEntries => 8
  | logfileGroupEntries => 9
  | tablespaceEntries => 10
  | charsetEntries => 11
  | collationEntries => 12
  | userVarEntries => 13
  | runtimeFunctionEntries => 14
  | systemVarEntries => 15
  | udfEntries | fkEntries => 16
  end.

(** Entries grouped by kind, the kinds in the order of the result. *)
Definition kindsGrouped (l : list AcEntry) : Prop :=
  forall i j d, i < j < List.length l ->
    kindRank (fst (nth i l d)) <= kindRank (fst (nth j l d)).

(* ========================================================================= *)
(** * Properties *)

(** ** The reference stack and its snapshot *)

Lemma push_back_all (level refs : list TableReference) :
  fold_left (fun refs entry => refs ++ [entry]) level refs = refs ++ level.
Proof.
  revert refs; induction level as [|e level IH]; intros refs; simpl.
  - now rewrite app_nil_r.
  - rewrite IH, <- app_assoc. reflexivity.
Qed.

Lemma snapshot_levels (stack : list (list TableReference)) refs :
  fold_left
    (fun refs level => fold_left (fun refs entry => refs ++ [entry]) level refs)
    stack refs = refs ++ List.concat stack.
Proof.
  revert refs; induction stack as [|level stack IH]; intros refs; simpl.
  - now rewrite app_nil_r.
  - rewrite IH, push_back_all, <- app_assoc. reflexivity.
Qed.

(** The snapshot appends the references of all levels, outermost level
    first, and leaves the stack as it was. *)
Lemma takeReferencesSnapshot_appends (ctx : AutoCompletionContext) :
  references (takeReferencesSnapshot ctx)
  = references ctx ++ List.concat (referencesStack ctx)
  /\ referencesStack (takeReferencesSnapshot ctx) = referencesStack ctx
  /\ completionCandidates (takeReferencesSnapshot ctx) = completionCandidates ctx.
Proof.
  unfold takeReferencesSnapshot; simpl.
  rewrite snapshot_levels. auto.
Qed.


Lemma collectRemainingTableReferences_id (ctx : AutoCompletionContext) :
  collectRemainingTableReferences ctx = ctx.
Proof. reflexivity. Qed.

Lemma snapshot_loop_root (c : CandidatesCollection)
      (rs : list (MySQLParser.RuleIndex * list N)) :
  fold_left
    (fun ctx (ruleEntry : MySQLParser.RuleIndex * list N) =>
       if MySQLParser.is_RuleColumnRef (fst ruleEntry)
       then takeReferencesSnapshot (collectRemainingTableReferences ctx)
       else ctx)
    rs (mkContext c [[]] [])
  = mkContext c [[]] [].
Proof.
  induction rs as [|r rs IH]; simpl; [reflexivity|].
  destruct (MySQLParser.is_RuleColumnRef (fst r)); exact IH.
Qed.

Lemma collectCandidates_context (parser : MySQLParserObject) (caret : nat * nat) :
  collectCandidates newContext parser caret
  = mkContext (renameNot2 (c3_collectCandidates parser caret)) [[]] [].
Proof.
  unfold collectCandidates, newContext; simpl.
  apply snapshot_loop_root.
Qed.

(** C2: for [SELECT ^ FROM t1] with a column reference among the rule
    candidates, no reference is collected from the FROM clause after the
    caret, and the result has no column of [t1]. *)
Theorem collectCandidates_misses_following_from :
  references (collectCandidates newContext Samples.selectFrom (7, 1)) = []
  /\ getCodeCompletionList 0 7 "s" false Samples.selectFrom EmptyString Samples.cache
     = [(AC_KEYWORD_IMAGE, "distinct"%string); (AC_TABLE_IMAGE, "t1"%string);
        (AC_TABLE_IMAGE, "t2"%string); (AC_SCHEMA_IMAGE, "s"%string)].
Proof. split; reflexivity. Qed.

(** ** The synonyms table *)

(** C1: for [SELECT NOW^] the table holds three other spellings of NOW, and
    the result is the one entry [now]. *)
Theorem getCodeCompletionList_without_synonyms :
  StdMap.find MySQLLexer.NOW_SYMBOL synonyms
  = Some ["CURRENT_TIMESTAMP"%string; "LOCALTIME"%string; "LOCALTIMESTAMP"%string]
  /\ getCodeCompletionList 0 10 "s" false Samples.selectNow EmptyString Samples.cache
     = [(AC_KEYWORD_IMAGE, "now"%string)].
Proof. split; reflexivity. Qed.

(** ** The order of the groups *)


Lemma emit_emissionOrder (sets : Sets) :
  emit sets = flat_map sets emissionOrder.
Proof.
  unfold emit, emissionOrder; simpl.
  rewrite app_nil_r. repeat rewrite <- app_assoc. reflexivity.
Qed.

(** ** The two-part qualifier *)

Section TwoPartQualifier.
Import ScannerOps.
Import MySQLLexer.

(** C10: the offset handed to [determineQualifier] has no bearing on the
    flags, the qualifier or the scanner it returns. *)
Theorem determineQualifier_offset_unused
        (scanner : Scanner) (lexer : MySQLLexerObject) (offset1 offset2 : nat) :
  determineQualifier scanner lexer offset1 = determineQualifier scanner lexer offset2.
Proof. reflexivity. Qed.

(** C7: with the scanner on the leading identifier, whose unquoted text is
    read before moving on by one token: if the token reached is no dot, or
    its index is at or past the index saved on entry, the flags are
    ShowFirst|ShowSecond and the qualifier is empty; otherwise the flags are
    ShowSecond and the qualifier is that text. *)
Theorem determineQualifier_emission
        (scanner : Scanner) (lexer : MySQLLexerObject) (offsetInLine : nat) :
  let position := tokenIndex scanner in
  let lead := qualifierLead scanner lexer in
  let after := next lead true in
  isIdentifier lexer (tokenType lead) = true ->
  determineQualifier scanner lexer offsetInLine
  = if negb (is_ after DOT_SYMBOL) || (position <=? tokenIndex after)
    then (Z.lor ShowFirst ShowSecond, EmptyString, after)
    else (ShowSecond, base.unquote (tokenText lead), after).
Proof.
  intros position lead after Hid.
  unfold determineQualifier.
  change (if 0 <? tokenIndex scanner then _ else _)
    with (qualifierLead scanner lexer).
  fold lead. rewrite Hid. fold after. fold position.
  reflexivity.
Qed.

(** [s1.t1.^] read as a two-part name: the lead is [t1], the dot after it
    lies left of the caret. *)
Lemma determineQualifier_emission_witness :
  isIdentifier Samples.lexer (tokenType (qualifierLead Samples.dotted Samples.lexer)) = true
  /\ fst (determineQualifier Samples.dotted Samples.lexer 0) = (ShowSecond, "t1"%string).
Proof.
  split; [reflexivity|].
  rewrite (determineQualifier_emission Samples.dotted Samples.lexer 0); reflexivity.
Defined.

End TwoPartQualifier.

(** ** Ordering of texts and of completion sets *)

Lemma compare_refl (s : string) : String.compare s s = Eq.
Proof. apply String_as_OT.cmp_eq. reflexivity. Qed.

Lemma string_compare_zero (a b : string) :
  base.string_compare a b false = 0%Z <-> base.tolower a = base.tolower b.
Proof.
  unfold base.string_compare.
  destruct (String.compare (base.tolower a) (base.tolower b)) eqn:E; split;
    intros H; try discriminate; try reflexivity;
    try (now apply String.compare_eq_iff);
    rewrite H, compare_refl in E; discriminate.
Qed.

Lemma CompareAcEntries_lt (x y : AcEntry) :
  CompareAcEntries x y = true
  <-> String_as_OT.lt (base.tolower (snd x)) (base.tolower (snd y)).
Proof.
  unfold CompareAcEntries, base.string_compare.
  rewrite <- String_as_OT.cmp_lt. unfold String_as_OT.cmp.
  destruct (String.compare (base.tolower (snd x)) (base.tolower (snd y)));
    split; intros H; try reflexivity; try discriminate H.
Qed.

Lemma textLess_trans (x y z : AcEntry) :
  textLess x y -> textLess y z -> textLess x z.
Proof.
  unfold textLess. rewrite !CompareAcEntries_lt.
  apply String_as_OT.lt_trans.
Qed.

Lemma textLess_not_same (x y : AcEntry) :
  textLess x y -> ~ sameText (snd x) (snd y).
Proof.
  unfold textLess, sameText. rewrite CompareAcEntries_lt, string_compare_zero.
  intros Hlt Heq. exact (String_as_OT.lt_not_eq _ _ Hlt Heq).
Qed.

(** Two entries neither of which is less than the other have the same text
    up to case. *)
Lemma equivalent_same_text (x y : AcEntry) :
  CompareAcEntries x y = false -> CompareAcEntries y x = false ->
  sameText (snd x) (snd y).
Proof.
  unfold CompareAcEntries, sameText, base.string_compare.
  rewrite (String.compare_antisym (base.tolower (snd x)) (base.tolower (snd y))).
  destruct (String.compare (base.tolower (snd y)) (base.tolower (snd x)));
    simpl; intros H1 H2; try reflexivity; try discriminate H1; try discriminate H2.
Qed.

Lemma sameText_sym (a b : string) : sameText a b -> sameText b a.
Proof. unfold sameText. rewrite !string_compare_zero. auto. Qed.

Lemma set_insert_In (e x : AcEntry) (s : CompletionSet) :
  In x (set_insert e s) -> x = e \/ In x s.
Proof.
  induction s as [|y s IH]; simpl.
  - intros [H|[]]; auto.
  - destruct (CompareAcEntries e y).
    + intros [H|H]; auto.
    + destruct (CompareAcEntries y e); [|auto].
      intros [H|H]; [auto|]. destruct (IH H); auto.
Qed.

Lemma set_insert_keeps (e x : AcEntry) (s : CompletionSet) :
  In x s -> In x (set_insert e s).
Proof.
  induction s as [|y s IH]; simpl; [tauto|].
  destruct (CompareAcEntries e y); [simpl; tauto|].
  destruct (CompareAcEntries y e); simpl; tauto.
Qed.

(** After an insertion the set holds an entry with the text of the new one,
    up to case: the new entry itself or the one that kept it out. *)
Lemma set_insert_present (e : AcEntry) (s : CompletionSet) :
  exists x, In x (set_insert e s) /\ sameText (snd x) (snd e).
Proof.
  induction s as [|y s IH]; simpl.
  - exists e. split; [auto|]. apply string_compare_zero. reflexivity.
  - destruct (CompareAcEntries e y) eqn:E1.
    + exists e. split; [simpl; auto|]. apply string_compare_zero. reflexivity.
    + destruct (CompareAcEntries y e) eqn:E2.
      * destruct IH as [x [Hin Hs]]. exists x. simpl; auto.
      * exists y. split; [simpl; auto|]. now apply equivalent_same_text.
Qed.

Lemma set_insert_sorted (e : AcEntry) (s : CompletionSet) :
  StronglySorted textLess s -> StronglySorted textLess (set_insert e s).
Proof.
  induction s as [|y s IH]; simpl; intros Hs.
  - repeat constructor.
  - destruct (CompareAcEntries e y) eqn:E1.
    + constructor; [assumption|].
      inversion Hs as [|? ? Hs' Hall]; subst.
      constructor; [exact E1|].
      eapply Forall_impl; [|exact Hall].
      intros z Hz. eapply textLess_trans; [exact E1|exact Hz].
    + destruct (CompareAcEntries y e) eqn:E2; [|assumption].
      inversion Hs as [|? ? Hs' Hall]; subst.
      constructor; [auto|].
      apply Forall_forall. intros z Hz.
      apply set_insert_In in Hz. destruct Hz as [->|Hz]; [exact E2|].
      rewrite Forall_forall in Hall. auto.
Qed.

(** In a strictly sorted set no two places hold the same text up to case. *)
Lemma sorted_texts_differ (s : CompletionSet) :
  StronglySorted textLess s ->
  forall i j d, i < j < List.length s ->
    ~ sameText (snd (nth i s d)) (snd (nth j s d)).
Proof.
  induction 1 as [|x s Hs IH Hall]; intros i j d [Hij Hj]; simpl in Hj; [lia|].
  destruct j as [|j]; [lia|]. destruct i as [|i]; simpl.
  - apply textLess_not_same.
    rewrite Forall_forall in Hall. apply Hall, nth_In. lia.
  - apply IH. lia.
Qed.

(** ** What the two loops do to the sets *)

Lemma SetName_eqb_eq (a b : SetName) : SetName_eqb a b = true <-> a = b.
Proof. destruct a, b; simpl; split; intros H; congruence. Qed.

Lemma insert_same (set : SetName) (e : AcEntry) (sets : Sets) :
  insert set e sets set = set_insert e (sets set).
Proof.
  unfold insert. destruct (SetName_eqb set set) eqn:E; [reflexivity|].
  assert (SetName_eqb set set = true) by now apply SetName_eqb_eq.
  congruence.
Qed.

Lemma insert_other (set name : SetName) (e : AcEntry) (sets : Sets) :
  name <> set -> insert set e sets name = sets name.
Proof.
  unfold insert. destruct (SetName_eqb name set) eqn:E; [|reflexivity].
  apply SetName_eqb_eq in E. congruence.
Qed.

Section Preserved.

Import MySQLParser.

(** A property of the sets that every insertion of an entry with a kind
    other than keyword keeps. *)
Variable P : Sets -> Prop.
Hypothesis P_insert :
  forall set e sets, fst e <> AC_KEYWORD_IMAGE -> P sets -> P (insert set e sets).

Lemma fold_preserves (A : Type) (f : Sets -> A -> Sets) (l : list A) :
  (forall sets a, P sets -> P (f sets a)) ->
  forall sets, P sets -> P (fold_left f l sets).
Proof.
  intros Hf. induction l as [|a l IH]; simpl; auto.
Qed.

Lemma insertNames_preserves set kind names sets :
  kind <> AC_KEYWORD_IMAGE -> P sets -> P (insertNames set kind names sets).
Proof.
  intros Hk. unfold insertNames. apply fold_preserves.
  intros s a Hs. apply P_insert; auto.
Qed.

Lemma insertSchemas_preserves cache set typedPart sets :
  P sets -> P (insertSchemas cache set typedPart sets).
Proof. apply insertNames_preserves. discriminate. Qed.

Lemma insertTables_preserves cache set schemas typedPart sets :
  P sets -> P (insertTables cache set schemas typedPart sets).
Proof.
  unfold insertTables. apply fold_preserves.
  intros s a. apply insertNames_preserves. discriminate.
Qed.

Lemma insertViews_preserves cache set schemas typedPart sets :
  P sets -> P (insertViews cache set schemas typedPart sets).
Proof.
  unfold insertViews. apply fold_preserves.
  intros s a. apply insertNames_preserves. discriminate.
Qed.

Lemma insertColumns_preserves cache set schemas tables typedPart sets :
  P sets -> P (insertColumns cache set schemas tables typedPart sets).
Proof.
  unfold insertColumns. apply fold_preserves.
  intros s a. apply fold_preserves.
  intros s' b. apply insertNames_preserves. discriminate.
Qed.

Lemma showColumns_preserves cache queryType defaultSchema schema0 table0 refs
      candidate schemas sets :
  P sets ->
  P (showColumns cache queryType defaultSchema schema0 table0 refs candidate
       schemas sets).
Proof.
  intros H. unfold showColumns.
  assert (H1 : P (if negb (StringSet.empty (columnTables table0 refs candidate))
                  then insertColumns cache columnEntries
                         (if String.eqb schema0 table0
                          then StringSet.insert defaultSchema schemas else schemas)
                         (columnTables table0 refs candidate) EmptyString sets
                  else sets)).
  { destruct (negb _); [apply insertColumns_preserves|]; exact H. }
  destruct refs as [|first rest]; [exact H1|].
  destruct (_ && _); [apply insertColumns_preserves|]; exact H1.
Qed.

Lemma columnCandidate_preserves cache lexer queryType defaultSchema refs candidate
      scanner sets :
  P sets ->
  P (snd (columnCandidate cache lexer queryType defaultSchema refs candidate
            scanner sets)).
Proof.
  intros H. unfold columnCandidate.
  destruct (determineSchemaTableQualifier scanner lexer)
    as [[[flags schema0] table0] scanner']. simpl.
  assert (H1 : P (if hasFlag flags ShowSchemas
                  then insertSchemas cache schemaEntries EmptyString sets else sets)).
  { destruct (hasFlag flags ShowSchemas); [apply insertSchemas_preserves|]; exact H. }
  match goal with |- P (if hasFlag flags ShowColumns then _ ?s else ?s) =>
    assert (H2 : P s) end.
  { destruct (hasFlag flags ShowTables); [|exact H1].
    destruct (is_RuleColumnRef candidate).
    - apply fold_preserves.
      + intros s r Hs. destruct (_ || _); [apply P_insert|]; auto. discriminate.
      + apply insertViews_preserves, insertTables_preserves, H1.
    - apply insertTables_preserves, H1. }
  destruct (hasFlag flags ShowColumns); [apply showColumns_preserves|]; exact H2.
Qed.

Lemma qualifiedCandidate_preserves cache lexer defaultSchema caretOffset second
      scanner sets :
  (forall q s, P s -> P (second q s)) ->
  P sets ->
  P (snd (qualifiedCandidate cache lexer defaultSchema caretOffset second
            scanner sets)).
Proof.
  intros Hsecond H. unfold qualifiedCandidate.
  destruct (determineQualifier scanner lexer caretOffset)
    as [[flags qualifier] scanner']. simpl.
  destruct (hasFlag flags ShowSecond); [apply Hsecond|];
    (destruct (hasFlag flags ShowFirst); [apply insertSchemas_preserves|]; exact H).
Qed.

Lemma ruleSwitch_preserves cache lexer queryType defaultSchema functionNames
      caretOffset refs candidate scanner sets :
  P sets ->
  P (snd (ruleSwitch cache lexer queryType defaultSchema functionNames caretOffset
            refs candidate scanner sets)).
Proof.
  intros H.
  destruct candidate; unfold ruleSwitch; cbv beta iota; cbn [snd fst]; try exact H;
    try (apply columnCandidate_preserves; exact H);
    try (apply insertNames_preserves; [discriminate|exact H]);
    try (apply insertSchemas_preserves; exact H);
    try (apply P_insert; [discriminate|exact H]);
    try (apply qualifiedCandidate_preserves; [|exact H]; intros q s Hs;
         repeat first [apply insertViews_preserves | apply insertTables_preserves
                      | apply insertNames_preserves; [discriminate|] ]; exact Hs).
  - (* RuleTableRefWithWildcard *)
    destruct (determineSchemaTableQualifier scanner lexer)
      as [[[flags schema0] table0] scanner']. cbn [snd fst].
    destruct (hasFlag flags ShowTables);
      [apply insertViews_preserves, insertTables_preserves|];
      (destruct (hasFlag flags ShowSchemas); [apply insertSchemas_preserves|]; exact H).
  - (* RuleFunctionRef *)
    destruct (determineQualifier scanner lexer caretOffset)
      as [[flags qualifier] scanner']. cbn [snd fst].
    destruct (hasFlag flags ShowSecond); [apply insertNames_preserves; [discriminate|]|];
      (destruct (hasFlag flags ShowFirst); [apply insertSchemas_preserves|]);
      (destruct (str_empty qualifier); [|exact H]);
      (apply fold_preserves; [|exact H]; intros s a Hs; apply P_insert;
       [discriminate|exact Hs]).
  - (* RuleFunctionCall *)
    destruct (determineQualifier scanner lexer caretOffset)
      as [[flags qualifier] scanner']. cbn [snd fst].
    destruct (hasFlag flags ShowSecond); [apply insertNames_preserves; [discriminate|]|];
      (destruct (hasFlag flags ShowFirst); [apply insertSchemas_preserves|]);
      (destruct (str_empty qualifier); [|exact H]);
      (apply fold_preserves; [|exact H]; intros s a Hs; apply P_insert;
       [discriminate|exact Hs]).
  - (* RuleRuntimeFunctionCall *)
    apply fold_preserves; [|exact H]. intros s a Hs. apply P_insert;
      [discriminate|exact Hs].
  - (* RuleTriggerRef *)
    destruct (determineQualifier scanner lexer caretOffset)
      as [[flags qualifier] scanner']. cbn [snd fst].
    destruct (hasFlag flags ShowSecond); [apply insertNames_preserves; [discriminate|]|];
      (destruct (hasFlag flags ShowFirst); [apply insertTables_preserves|]; exact H).
Qed.

Lemma rule_loop_preserves cache lexer queryType defaultSchema functionNames
      caretOffset refs (rs : list (RuleIndex * list N)) (state : Scanner * Sets) :
  P (snd state) ->
  P (snd (fold_left
            (ruleCandidate cache lexer queryType defaultSchema functionNames
               caretOffset refs)
            rs state)).
Proof.
  revert state. induction rs as [|r rs IH]; intros state H; simpl; [exact H|].
  apply IH. unfold ruleCandidate. apply ruleSwitch_preserves. exact H.
Qed.

End Preserved.

(** ** Bindings of a map *)

Section MapFacts.
Variable V : Type.
Implicit Types (m : list (N * V)) (k : N) (v : V).



Lemma find_erase_other k k' m :
  k <> k' -> StdMap.find k (StdMap.erase k' m) = StdMap.find k m.
Proof.
  intros Hne. induction m as [|[k0 v0] m IH]; simpl; [reflexivity|].
  destruct (k' =? k0)%N eqn:E.
  - apply N.eqb_eq in E. subst k0.
    destruct (k =? k')%N eqn:E'; [apply N.eqb_eq in E'; congruence|exact IH].
  - simpl. destruct (k =? k0)%N; [reflexivity|exact IH].
Qed.




End MapFacts.

(** ** The token candidates after post-processing *)



Lemma tokenCandidate_insert (vocabulary : N -> string) (uppercaseKeywords : bool)
      (sets : Sets) (candidate : N * list N) :
  tokenCandidate vocabulary uppercaseKeywords sets candidate
  = if followedByCall (snd candidate)
    then insert runtimeFunctionEntries
           (AC_FUNCTION_IMAGE,
            String.append (base.tolower (displayEntry vocabulary (fst candidate)))
                          "()") sets
    else insert keywordEntries
           (AC_KEYWORD_IMAGE,
            keywordText vocabulary uppercaseKeywords (fst candidate) (snd candidate))
           sets.
Proof.
  unfold tokenCandidate, keywordText, followedByCall.
  destruct (snd candidate) as [|first rest]; [reflexivity|].
  destruct (first =? MySQLLexer.OPEN_PAR_SYMBOL)%N; reflexivity.
Qed.

Lemma collectedSets_loops (caretLine caretOffset : nat) (defaultSchema : string)
      (uppercaseKeywords : bool) (parser : MySQLParserObject)
      (functionNames : string) (cache : MySQLObjectNamesCache) :
  exists scanner,
    collectedSets caretLine caretOffset defaultSchema uppercaseKeywords parser
      functionNames cache
    = snd (fold_left
             (ruleCandidate cache (getTokenSource parser)
                (determineQueryType (getTokenSource parser)) defaultSchema
                functionNames caretOffset [])
             (rules (renameNot2 (c3_collectCandidates parser
                                   (caretOffset, size_t_succ caretLine))))
             (scanner,
              fold_left
                (tokenCandidate (getDisplayName parser) uppercaseKeywords)
                (tokens (renameNot2 (c3_collectCandidates parser
                                       (caretOffset, size_t_succ caretLine))))
                noEntries)).
Proof.
  unfold collectedSets. rewrite collectCandidates_context. cbn [completionCandidates references].
  eexists.
  match goal with |- (let '(_, _) := ?x in _) = _ => destruct x eqn:E end.
  rewrite E. reflexivity.
Qed.

(** ** Every set is kept in strict order of its texts *)

Lemma allSorted_insert (set : SetName) (e : AcEntry) (sets : Sets) :
  allSorted sets -> allSorted (insert set e sets).
Proof.
  intros H name. unfold insert.
  destruct (SetName_eqb name set); [apply set_insert_sorted|]; apply H.
Qed.

Lemma token_loop_preserves (P : Sets -> Prop) vocabulary uppercaseKeywords
      (l : list (N * list N)) (sets : Sets) :
  (forall set e s, P s -> P (insert set e s)) ->
  P sets -> P (fold_left (tokenCandidate vocabulary uppercaseKeywords) l sets).
Proof.
  intros HP. revert sets. induction l as [|c l IH]; intros sets H; simpl; [exact H|].
  apply IH. rewrite tokenCandidate_insert.
  destruct (followedByCall (snd c)); apply HP, H.
Qed.

Lemma collectedSets_preserves (P : Sets -> Prop)
      caretLine caretOffset defaultSchema uppercaseKeywords parser functionNames cache :
  (forall set e s, P s -> P (insert set e s)) ->
  P noEntries ->
  P (collectedSets caretLine caretOffset defaultSchema uppercaseKeywords parser
       functionNames cache).
Proof.
  intros HP H0.
  destruct (collectedSets_loops caretLine caretOffset defaultSchema
              uppercaseKeywords parser functionNames cache) as [scanner ->].
  apply rule_loop_preserves; [intros; now apply HP|]. cbn [snd].
  apply token_loop_preserves; assumption.
Qed.

Lemma set_insert_duplicate (e x : AcEntry) (s : CompletionSet) :
  StronglySorted textLess s -> In x s -> sameText (snd x) (snd e) ->
  set_insert e s = s.
Proof.
  intros Hs Hin Hsame. apply string_compare_zero in Hsame.
  induction Hs as [|y s Hs IH Hall]; [destruct Hin|]. simpl.
  rewrite Forall_forall in Hall.
  destruct (CompareAcEntries e y) eqn:E1.
  - exfalso. apply CompareAcEntries_lt in E1.
    destruct Hin as [->|Hin].
    + rewrite Hsame in E1. exact (String_as_OT.lt_not_eq _ _ E1 eq_refl).
    + specialize (Hall x Hin). apply CompareAcEntries_lt in Hall.
      rewrite Hsame in Hall.
      exact (String_as_OT.lt_not_eq _ _ (String_as_OT.lt_trans _ _ _ E1 Hall) eq_refl).
  - destruct (CompareAcEntries y e) eqn:E2; [|reflexivity].
    apply CompareAcEntries_lt in E2.
    destruct Hin as [->|Hin].
    + exfalso. rewrite Hsame in E2. exact (String_as_OT.lt_not_eq _ _ E2 eq_refl).
    + f_equal. apply IH, Hin.
Qed.

(** C3, as amended: every completion set is in strictly increasing order of
    its texts compared without regard to case, the kind playing no part; an
    entry whose text is in the set already, up to case and under whatever
    kind, is not added; so no set holds the same text twice. *)
Theorem completion_sets_sorted_by_text_alone
        (caretLine caretOffset : nat) (defaultSchema : string)
        (uppercaseKeywords : bool) (parser : MySQLParserObject)
        (functionNames : string) (cache : MySQLObjectNamesCache) (name : SetName) :
  let set := collectedSets caretLine caretOffset defaultSchema uppercaseKeywords
               parser functionNames cache name in
  StronglySorted textLess set
  /\ (forall e x, In x set -> sameText (snd x) (snd e) -> set_insert e set = set)
  /\ (forall i j d, i < j < List.length set ->
        ~ sameText (snd (nth i set d)) (snd (nth j set d))).
Proof.
  intros set.
  assert (Hs : StronglySorted textLess set).
  { unfold set.
    apply (collectedSets_preserves allSorted); [intros; now apply allSorted_insert|].
    intros n. constructor. }
  split; [exact Hs|]. split.
  - intros e x. now apply set_insert_duplicate.
  - now apply sorted_texts_differ.
Qed.

(** C3, the claim as worded: an entry that differs from a present one in
    its kind only is not added, although the ordering with the kind as
    tie-break would tell the two apart; and a stored function and a stored
    procedure of one name come out as the same pair twice. *)
Lemma completion_set_ignores_kind :
  CompareAcEntries_spec (AC_SCHEMA_IMAGE, "t"%string) (AC_TABLE_IMAGE, "t"%string)
  = true
  /\ CompareAcEntries (AC_SCHEMA_IMAGE, "t"%string) (AC_TABLE_IMAGE, "t"%string)
     = false
  /\ ~ In (AC_TABLE_IMAGE, "t"%string)
         (set_insert (AC_TABLE_IMAGE, "t"%string) [(AC_SCHEMA_IMAGE, "t"%string)])
  /\ ~ noDuplicateEntries
         (getCodeCompletionList 0 0 "s" false Samples.routines EmptyString
            Samples.cache).
Proof.
  split; [reflexivity|]. split; [reflexivity|]. split.
  - simpl. intros [H|[]]. discriminate H.
  - intros H. apply (H 1 2 (0%Z, EmptyString)).
    + simpl. lia.
    + split; reflexivity.
Qed.

(** ** The tables of the column branch *)

Lemma StringSet_insert_In (x t : string) (s : StringSet.t) :
  In t (StringSet.insert x s) <-> t = x \/ In t s.
Proof.
  induction s as [|y s IH]; simpl; [intuition congruence|].
  destruct (String.compare x y) eqn:E; simpl.
  - apply String.compare_eq_iff in E. subst. intuition congruence.
  - intuition congruence.
  - rewrite IH. intuition congruence.
Qed.








(** ** Keyword entries and the secondary NOT *)


Lemma insert_keeps (set name : SetName) (e0 e : AcEntry) (sets : Sets) :
  In e (sets name) -> In e (insert set e0 sets name).
Proof.
  unfold insert. destruct (SetName_eqb name set); [apply set_insert_keeps|auto].
Qed.

Section KeywordEntries.

Variable toks : list (N * list N).
Variable vocabulary : N -> string.
Variable uppercaseKeywords : bool.






End KeywordEntries.




(** [SELECT a FROM t1 WHERE ^] with NOT2 reported by the engine: the result
    has the keyword [not] and no keyword [not2]. *)
Example selectWhere_not :
  let result :=
    getCodeCompletionList 0 23 "s" false Samples.selectWhere EmptyString
      Samples.cache in
  In (AC_KEYWORD_IMAGE, "not"%string) result
  /\ ~ In (AC_KEYWORD_IMAGE, "not2"%string) result.
Proof.
  split; [simpl; auto|].
  simpl. intros H. repeat (destruct H as [H|H]; [discriminate H|]). exact H.
Qed.

(** ** Moving the scanner over hidden tokens *)

Section ScannerMoves.
Import ScannerOps.

Variable toks : list Token.







End ScannerMoves.

(** ** The three-part qualifier *)

Section ThreePartQualifier.
Import ScannerOps.
Import MySQLLexer.

Variable lexer : MySQLLexerObject.
Hypothesis dot_no_identifier : isIdentifier lexer DOT_SYMBOL = false.
Variable toks : list Token.
Variable stack : list nat.










End ThreePartQualifier.



(* ========================================================================= *)
(** * Further properties of the completion code *)

(** ** The post-processing of the token candidates *)

Lemma find_assign_other (V : Type) (k k' : N) (v : V) (m : list (N * V)) :
  k <> k' -> StdMap.find k (StdMap.assign k' v m) = StdMap.find k m.
Proof.
  intros Hne. induction m as [|[k0 v0] m IH]; simpl.
  - destruct (k =? k')%N eqn:E; [apply N.eqb_eq in E; congruence|reflexivity].
  - destruct (k' <? k0)%N; simpl.
    + destruct (k =? k')%N eqn:E; [apply N.eqb_eq in E; congruence|reflexivity].
    + destruct (k' =? k0)%N eqn:E0; simpl.
      * apply N.eqb_eq in E0. subst k0.
        destruct (k =? k')%N eqn:E; [apply N.eqb_eq in E; congruence|reflexivity].
      * destruct (k =? k0)%N; [reflexivity|exact IH].
Qed.

(** Renaming NOT2 touches the bindings of NOT and NOT2 only: the rule
    candidates are kept, every other token keeps its follow tokens, and a
    collection without NOT2 is left as it is. *)
Theorem renameNot2_frame (c : CandidatesCollection) :
  rules (renameNot2 c) = rules c
  /\ (StdMap.count MySQLLexer.NOT2_SYMBOL (tokens c) = 0 -> renameNot2 c = c)
  /\ (forall k, k <> MySQLLexer.NOT_SYMBOL -> k <> MySQLLexer.NOT2_SYMBOL ->
        StdMap.find k (tokens (renameNot2 c)) = StdMap.find k (tokens c)).
Proof.
  unfold renameNot2. split; [|split].
  - destruct (0 <? _); [|reflexivity].
    destruct (StdMap.find _ _); reflexivity.
  - intros ->. reflexivity.
  - intros k H1 H2.
    destruct (0 <? _); [|reflexivity].
    destruct (StdMap.find MySQLLexer.NOT2_SYMBOL (tokens c)); [|reflexivity].
    simpl. rewrite find_erase_other by assumption.
    now apply find_assign_other.
Qed.

(** ** What the qualifier analysers can return *)

Section QualifierResults.
Import ScannerOps.
Import MySQLLexer.

(** [determineQualifier] has two outcomes: both parts are to be shown and
    no qualifier is given, or the second part only is to be shown, and then
    the scanner is left on a dot that lies strictly left of the place it
    started from. *)
Theorem determineQualifier_outcomes
        (scanner : Scanner) (lexer : MySQLLexerObject) (offsetInLine : nat) :
  let r := determineQualifier scanner lexer offsetInLine in
  (fst (fst r) = Z.lor ShowFirst ShowSecond /\ snd (fst r) = EmptyString)
  \/ (fst (fst r) = ShowSecond
      /\ is_ (snd r) DOT_SYMBOL = true
      /\ tokenIndex (snd r) < tokenIndex scanner).
Proof.
  unfold determineQualifier.
  change (if 0 <? tokenIndex scanner then _ else _)
    with (qualifierLead scanner lexer).
  set (lead := qualifierLead scanner lexer).
  destruct (isIdentifier lexer (tokenType lead)).
  - destruct (is_ (next lead true) DOT_SYMBOL) eqn:E1; cbn [negb orb]; [|left; auto].
    destruct (tokenIndex scanner <=? tokenIndex (next lead true)) eqn:E2;
      [left; auto|].
    right. cbn [fst snd]. apply Nat.leb_gt in E2. auto.
  - destruct (is_ lead DOT_SYMBOL) eqn:E1; cbn [negb orb]; [|left; auto].
    destruct (tokenIndex scanner <=? tokenIndex lead) eqn:E2; [left; auto|].
    right. cbn [fst snd]. apply Nat.leb_gt in E2. auto.
Qed.

(** With the scanner on the first token of the stream nothing lies left of
    the caret: both parts are to be shown and no qualifier is given. *)
Theorem determineQualifier_at_start
        (scanner : Scanner) (lexer : MySQLLexerObject) (offsetInLine : nat) :
  tokenIndex scanner = 0 ->
  fst (determineQualifier scanner lexer offsetInLine)
  = (Z.lor ShowFirst ShowSecond, EmptyString).
Proof.
  intros H. unfold determineQualifier. rewrite H.
  change (0 <? 0) with false. cbv beta iota zeta.
  match goal with |- context [if isIdentifier lexer ?t then _ else _] =>
    destruct (isIdentifier lexer t) end;
    change (0 <=? ?n) with true; rewrite orb_true_r; reflexivity.
Qed.

Lemma determineQualifier_at_start_witness :
  fst (determineQualifier (setIndex Samples.dotted 0) Samples.lexer 0)
  = (Z.lor ShowFirst ShowSecond, EmptyString).
Proof.
  apply (determineQualifier_at_start (setIndex Samples.dotted 0) Samples.lexer 0).
  reflexivity.
Defined.

(** [determineSchemaTableQualifier] has three outcomes: all three flags
    with empty schema and table; tables and columns with one text for
    schema and table; columns only, and then the scanner is left on a dot
    strictly left of the place it started from.  Columns are to be shown in
    every case. *)
Theorem determineSchemaTableQualifier_outcomes
        (scanner : Scanner) (lexer : MySQLLexerObject) :
  let r := determineSchemaTableQualifier scanner lexer in
  let flags := fst (fst (fst r)) in
  let schema0 := snd (fst (fst r)) in
  let table0 := snd (fst r) in
  hasFlag flags ShowColumns = true
  /\ ((flags = Z.lor (Z.lor ShowSchemas ShowTables) ShowColumns
       /\ schema0 = EmptyString /\ table0 = EmptyString)
      \/ (flags = Z.lor ShowTables ShowColumns /\ schema0 = table0)
      \/ (flags = ShowColumns
          /\ is_ (snd r) DOT_SYMBOL = true
          /\ tokenIndex (snd r) < tokenIndex scanner)).
Proof.
  unfold determineSchemaTableQualifier.
  change (if 0 <? tokenIndex scanner then _ else _)
    with (schemaTableLead scanner lexer).
  set (lead := schemaTableLead scanner lexer).
  assert (Hread :
    forall (temp : string) (s : Scanner),
      let r :=
        if negb (is_ s DOT_SYMBOL) || (tokenIndex scanner <=? tokenIndex s)
        then (Z.lor (Z.lor ShowSchemas ShowTables) ShowColumns,
              EmptyString, EmptyString, s)
        else
          if isIdentifier lexer (tokenType (next s true)) then
            if negb (is_ (next (next s true) true) DOT_SYMBOL)
               || (tokenIndex scanner <=? tokenIndex (next (next s true) true))
            then (Z.lor ShowTables ShowColumns, temp, temp,
                  next (next s true) true)
            else (ShowColumns, temp,
                  base.unquote (tokenText (next s true)),
                  next (next s true) true)
          else (Z.lor ShowTables ShowColumns, temp, temp, next s true) in
      hasFlag (fst (fst (fst r))) ShowColumns = true
      /\ ((fst (fst (fst r)) = Z.lor (Z.lor ShowSchemas ShowTables) ShowColumns
           /\ snd (fst (fst r)) = EmptyString /\ snd (fst r) = EmptyString)
          \/ (fst (fst (fst r)) = Z.lor ShowTables ShowColumns
              /\ snd (fst (fst r)) = snd (fst r))
          \/ (fst (fst (fst r)) = ShowColumns
              /\ is_ (snd r) DOT_SYMBOL = true
              /\ tokenIndex (snd r) < tokenIndex scanner))).
  { intros temp s.
    destruct (negb (is_ s DOT_SYMBOL) || (tokenIndex scanner <=? tokenIndex s));
      [cbn [fst snd]; split; [reflexivity|left; auto]|].
    destruct (isIdentifier lexer (tokenType (next s true)));
      [|cbn [fst snd]; split; [reflexivity|right; left; auto]].
    destruct (is_ (next (next s true) true) DOT_SYMBOL) eqn:E1; cbn [negb orb];
      [|cbn [fst snd]; split; [reflexivity|right; left; auto]].
    destruct (tokenIndex scanner <=? tokenIndex (next (next s true) true)) eqn:E2;
      cbn [fst snd]; (split; [reflexivity|]); [right; left; auto|].
    right; right. apply Nat.leb_gt in E2. auto. }
  destruct (isIdentifier lexer (tokenType lead)); apply Hread.
Qed.

End QualifierResults.

(** ** Where the entries of the result come from *)

Section Accounted.

Import MySQLParser.

Variable toks : list (N * list N).
Variable vocabulary : N -> string.
Variable uppercaseKeywords : bool.
Variable cache : MySQLObjectNamesCache.
Variable functionNames : string.
Variable refs : list TableReference.
Variable reported : list RuleIndex.

Let from :=
  origin toks vocabulary uppercaseKeywords cache functionNames refs reported.

(** A property of the sets that every insertion of an accounted entry keeps. *)
Variable P : Sets -> Prop.
Hypothesis P_insert :
  forall set e sets, from set e -> P sets -> P (insert set e sets).

Lemma fold_keeps (A : Type) (f : Sets -> A -> Sets) (l : list A) :
  (forall sets a, In a l -> P sets -> P (f sets a)) ->
  forall sets, P sets -> P (fold_left f l sets).
Proof.
  induction l as [|a l IH]; intros Hf sets H; simpl; [exact H|].
  apply IH; [intros s b Hb; apply Hf; now right|].
  apply Hf; [now left|exact H].
Qed.

Lemma insertNames_keeps set kind names sets :
  (forall n, In n names -> from set (kind, n)) ->
  P sets -> P (insertNames set kind names sets).
Proof.
  intros Hn. unfold insertNames. apply fold_keeps.
  intros s n Hin Hs. apply P_insert; auto.
Qed.

Lemma insertSchemas_keeps typedPart sets :
  typedPart = EmptyString ->
  P sets -> P (insertSchemas cache schemaEntries typedPart sets).
Proof.
  intros ->. apply insertNames_keeps. intros n Hn. now constructor.
Qed.

Lemma insertTables_keeps set schemas sets :
  set = tableEntries \/ (set = schemaEntries /\ In RuleTriggerRef reported) ->
  P sets -> P (insertTables cache set schemas EmptyString sets).
Proof.
  intros Hset. unfold insertTables. apply fold_keeps.
  intros s a _. apply insertNames_keeps. intros n Hn.
  destruct Hset as [->|[-> Hrep]].
  - eapply origin_table; exact Hn.
  - eapply origin_trigger_table; [exact Hrep|exact Hn].
Qed.

Lemma insertViews_keeps schemas sets :
  P sets -> P (insertViews cache viewEntries schemas EmptyString sets).
Proof.
  unfold insertViews. apply fold_keeps.
  intros s a _. apply insertNames_keeps. intros n Hn. econstructor; exact Hn.
Qed.

Lemma insertColumns_keeps schemas tables sets :
  P sets -> P (insertColumns cache columnEntries schemas tables EmptyString sets).
Proof.
  unfold insertColumns. apply fold_keeps.
  intros s a _. apply fold_keeps.
  intros s' b _. apply insertNames_keeps. intros n Hn. econstructor; exact Hn.
Qed.

Lemma showColumns_keeps queryType defaultSchema schema0 table0 candidate schemas sets :
  P sets ->
  P (showColumns cache queryType defaultSchema schema0 table0 refs candidate
       schemas sets).
Proof.
  intros H. unfold showColumns.
  match goal with |- P (match refs with [] => ?s | _ => _ end) =>
    assert (H1 : P s); [|set (s1 := s) in *; clearbody s1] end.
  { destruct (negb _); [apply insertColumns_keeps|]; exact H. }
  generalize refs at 1. intros rl. destruct rl as [|first rest]; [exact H1|].
  destruct (_ && _); [apply insertColumns_keeps|]; exact H1.
Qed.

Lemma columnCandidate_keeps lexer queryType defaultSchema candidate scanner sets :
  P sets ->
  P (snd (columnCandidate cache lexer queryType defaultSchema refs candidate
            scanner sets)).
Proof.
  intros H. unfold columnCandidate.
  destruct (determineSchemaTableQualifier scanner lexer)
    as [[[flags schema0] table0] scanner']. cbn [snd].
  assert (H1 : P (if hasFlag flags ShowSchemas
                  then insertSchemas cache schemaEntries EmptyString sets else sets)).
  { destruct (hasFlag flags ShowSchemas); [now apply insertSchemas_keeps|exact H]. }
  match goal with |- P (if hasFlag flags ShowColumns then _ ?s else ?s) =>
    assert (H2 : P s) end.
  { destruct (hasFlag flags ShowTables); [|exact H1].
    destruct (is_RuleColumnRef candidate).
    - apply fold_keeps.
      + intros s r Hr Hs. destruct (_ || _); [apply P_insert|]; auto.
        now constructor.
      + apply insertViews_keeps, insertTables_keeps; auto.
    - apply insertTables_keeps; auto. }
  destruct (hasFlag flags ShowColumns); [apply showColumns_keeps|]; exact H2.
Qed.

Lemma qualifiedCandidate_keeps lexer defaultSchema caretOffset second scanner sets :
  (forall q s, P s -> P (second q s)) ->
  P sets ->
  P (snd (qualifiedCandidate cache lexer defaultSchema caretOffset second
            scanner sets)).
Proof.
  intros Hsecond H. unfold qualifiedCandidate.
  destruct (determineQualifier scanner lexer caretOffset)
    as [[flags qualifier] scanner']. cbn [snd].
  destruct (hasFlag flags ShowSecond); [apply Hsecond|];
    (destruct (hasFlag flags ShowFirst); [now apply insertSchemas_keeps|exact H]).
Qed.

Lemma function_names_keep (names : list string) sets :
  (forall f, In f names ->
             from runtimeFunctionEntries (AC_FUNCTION_IMAGE, String.append f "()")) ->
  P sets ->
  P (fold_left
       (fun sets function =>
          insert runtimeFunctionEntries
            (AC_FUNCTION_IMAGE, String.append function "()") sets)
       names sets).
Proof.
  intros Hn. apply fold_keeps. intros s f Hf Hs. apply P_insert; auto.
Qed.

Lemma functionCandidate_keeps lexer defaultSchema caretOffset scanner sets :
  P sets ->
  P (snd (let '(flags, qualifier, scanner) :=
            determineQualifier scanner lexer caretOffset in
          let sets :=
            if str_empty qualifier then
              fold_left
                (fun sets function =>
                   insert runtimeFunctionEntries
                     (AC_FUNCTION_IMAGE, String.append function "()") sets)
                (getMatchingUdfNames cache EmptyString) sets
            else sets in
          let sets :=
            if hasFlag flags ShowFirst
            then insertSchemas cache schemaEntries EmptyString sets else sets in
          let sets :=
            if hasFlag flags ShowSecond then
              let qualifier :=
                if str_empty qualifier then defaultSchema else qualifier in
              insertNames functionEntries AC_ROUTINE_IMAGE
                (getMatchingFunctionNames cache qualifier EmptyString) sets
            else sets in
          (scanner, sets))).
Proof.
  intros H.
  destruct (determineQualifier scanner lexer caretOffset)
    as [[flags qualifier] scanner']. cbn [snd].
  destruct (hasFlag flags ShowSecond);
    [apply insertNames_keeps; [intros n Hn; econstructor; exact Hn|]|];
    (destruct (hasFlag flags ShowFirst); [apply insertSchemas_keeps; [reflexivity|]|]);
    (destruct (str_empty qualifier); [|exact H]);
    (apply function_names_keep; [|exact H]; intros f Hf; now apply origin_udf).
Qed.

Lemma ruleSwitch_keeps lexer queryType defaultSchema caretOffset candidate
      scanner sets :
  In candidate reported ->
  P sets ->
  P (snd (ruleSwitch cache lexer queryType defaultSchema functionNames caretOffset
            refs candidate scanner sets)).
Proof.
  intros Hrep H.
  destruct candidate; unfold ruleSwitch; cbv beta iota; try exact H;
    try (apply columnCandidate_keeps; exact H);
    try (apply functionCandidate_keeps; exact H);
    try (cbn [snd]; apply insertNames_keeps; [|exact H]; intros n Hn;
         econstructor; exact Hn);
    try (cbn [snd]; apply insertSchemas_keeps; [reflexivity|exact H]);
    try (cbn [snd]; apply P_insert; [constructor|exact H]);
    try (apply qualifiedCandidate_keeps; [|exact H]; intros q s Hs;
         repeat first [apply insertViews_keeps
                      | apply insertTables_keeps; [auto|]
                      | apply insertNames_keeps;
                        [intros n Hn; econstructor; exact Hn|] ]; exact Hs).
  - (* RuleTableRefWithWildcard *)
    destruct (determineSchemaTableQualifier scanner lexer)
      as [[[flags schema0] table0] scanner']. cbn [snd].
    destruct (hasFlag flags ShowTables);
      [apply insertViews_keeps, insertTables_keeps; [auto|]|];
      (destruct (hasFlag flags ShowSchemas);
       [apply insertSchemas_keeps; [reflexivity|]|]; exact H).
  - (* RuleRuntimeFunctionCall *)
    cbn [snd]. apply function_names_keep; [|exact H].
    intros f Hf. now apply origin_builtin.
  - (* RuleTriggerRef *)
    destruct (determineQualifier scanner lexer caretOffset)
      as [[flags qualifier] scanner']. cbn [snd].
    destruct (hasFlag flags ShowSecond);
      [apply insertNames_keeps; [intros n Hn; econstructor; exact Hn|]|];
      (destruct (hasFlag flags ShowFirst);
       [apply insertTables_keeps; [auto|]|]; exact H).
Qed.

Lemma rule_loop_keeps lexer queryType defaultSchema caretOffset
      (rs : list (RuleIndex * list N)) (state : Scanner * Sets) :
  (forall r, In r rs -> In (fst r) reported) ->
  P (snd state) ->
  P (snd (fold_left
            (ruleCandidate cache lexer queryType defaultSchema functionNames
               caretOffset refs)
            rs state)).
Proof.
  revert state. induction rs as [|r rs IH]; intros state Hrs H; simpl; [exact H|].
  apply IH; [intros r' Hr'; apply Hrs; now right|].
  unfold ruleCandidate. apply ruleSwitch_keeps; [apply Hrs; now left|exact H].
Qed.

Lemma token_loop_keeps (l : list (N * list N)) (sets : Sets) :
  incl l toks ->
  P sets -> P (fold_left (tokenCandidate vocabulary uppercaseKeywords) l sets).
Proof.
  intros Hl. apply fold_keeps. intros s [tok follow] Hin Hs.
  rewrite tokenCandidate_insert. cbn [fst snd].
  destruct (followedByCall follow) eqn:E; apply P_insert; try exact Hs.
  - apply origin_call with (follow := follow); [apply Hl, Hin|exact E].
  - apply origin_keyword; [apply Hl, Hin|exact E].
Qed.

End Accounted.

Lemma collectedSets_keeps (P : Sets -> Prop)
      caretLine caretOffset defaultSchema uppercaseKeywords parser functionNames cache :
  (forall set e sets,
      origin (tokens (renameNot2 (c3_collectCandidates parser
                                    (caretOffset, size_t_succ caretLine))))
             (getDisplayName parser) uppercaseKeywords cache functionNames []
             (map fst (rules (renameNot2 (c3_collectCandidates parser
                                            (caretOffset, size_t_succ caretLine)))))
             set e ->
      P sets -> P (insert set e sets)) ->
  P noEntries ->
  P (collectedSets caretLine caretOffset defaultSchema uppercaseKeywords parser
       functionNames cache).
Proof.
  intros HP H0.
  destruct (collectedSets_loops caretLine caretOffset defaultSchema
              uppercaseKeywords parser functionNames cache) as [scanner ->].
  eapply rule_loop_keeps;
    [exact HP|intros r Hr; apply in_map; exact Hr|]. cbn [snd].
  eapply token_loop_keeps; [exact HP|apply incl_refl|exact H0].
Qed.

Lemma collectedSets_origin
      caretLine caretOffset defaultSchema uppercaseKeywords parser functionNames cache
      (name : SetName) (e : AcEntry) :
  In e (collectedSets caretLine caretOffset defaultSchema uppercaseKeywords parser
          functionNames cache name) ->
  origin (tokens (renameNot2 (c3_collectCandidates parser
                                (caretOffset, size_t_succ caretLine))))
         (getDisplayName parser) uppercaseKeywords cache functionNames []
         (map fst (rules (renameNot2 (c3_collectCandidates parser
                                        (caretOffset, size_t_succ caretLine)))))
         name e.
Proof.
  revert name e.
  apply (collectedSets_keeps
           (fun sets => forall name e,
                In e (sets name) -> origin _ _ _ _ _ _ _ name e)).
  - intros set e0 sets Ho H name e Hin. unfold insert in Hin.
    destruct (SetName_eqb name set) eqn:E; [|auto].
    apply SetName_eqb_eq in E. subst name.
    apply set_insert_In in Hin. destruct Hin as [->|Hin]; auto.
  - intros name e [].
Qed.

Lemma origin_kind toks vocabulary uppercaseKeywords cache functionNames refs
      reported (name : SetName) (e : AcEntry) :
  origin toks vocabulary uppercaseKeywords cache functionNames refs reported
         name e ->
  In (fst e) (kindsOf name).
Proof. intros H. destruct H; simpl; auto. Qed.

Lemma emissionOrder_In (sets : Sets) (name : SetName) (e : AcEntry) :
  In name emissionOrder -> In e (sets name) -> In e (emit sets).
Proof.
  intros Hn He. rewrite emit_emissionOrder, in_flat_map. eauto.
Qed.

Lemma emit_In_order (sets : Sets) (e : AcEntry) :
  In e (emit sets) -> exists name, In name emissionOrder /\ In e (sets name).
Proof. rewrite emit_emissionOrder, in_flat_map. auto. Qed.

(** Every entry of the result is accounted for: it stands in one of the
    emitted sets and is the text of a token candidate, a name the cache
    gave, a built-in function name or one of the two fixed texts.  No
    table reference ever contributes, and a table stands in the schema set
    only when a trigger reference is among the reported rules. *)
Theorem getCodeCompletionList_accounted
        (caretLine caretOffset : nat) (defaultSchema : string)
        (uppercaseKeywords : bool) (parser : MySQLParserObject)
        (functionNames : string) (cache : MySQLObjectNamesCache) :
  Forall
    (fun e =>
       exists name,
         In name emissionOrder
         /\ origin (tokens (completionCandidates
                              (collectCandidates newContext parser
                                 (caretOffset, size_t_succ caretLine))))
                   (getDisplayName parser) uppercaseKeywords cache functionNames []
                   (map fst
                      (rules (completionCandidates
                                (collectCandidates newContext parser
                                   (caretOffset, size_t_succ caretLine)))))
                   name e)
    (getCodeCompletionList caretLine caretOffset defaultSchema uppercaseKeywords
       parser functionNames cache).
Proof.
  apply Forall_forall. intros e He.
  unfold getCodeCompletionList in He. apply emit_In_order in He.
  destruct He as [name [Hn He]]. exists name. split; [exact Hn|].
  rewrite collectCandidates_context. cbn [completionCandidates].
  eapply collectedSets_origin, He.
Qed.

(** Each set holds its own kind only, but for the schema set, which can
    also hold tables; the sets for user defined functions, users, indexes,
    plugins and foreign keys stay empty. *)
Theorem collectedSets_kinds
        (caretLine caretOffset : nat) (defaultSchema : string)
        (uppercaseKeywords : bool) (parser : MySQLParserObject)
        (functionNames : string) (cache : MySQLObjectNamesCache) :
  let sets := collectedSets caretLine caretOffset defaultSchema uppercaseKeywords
                parser functionNames cache in
  (forall name, Forall (fun e => In (fst e) (kindsOf name)) (sets name))
  /\ sets udfEntries = [] /\ sets userEntries = [] /\ sets indexEntries = []
  /\ sets pluginEntries = [] /\ sets fkEntries = [].
Proof.
  intros sets.
  assert (H : forall name e, In e (sets name) -> In (fst e) (kindsOf name)).
  { intros name e He. eapply origin_kind, collectedSets_origin, He. }
  split; [intros name; apply Forall_forall, H|].
  repeat split;
    match goal with |- sets ?n = [] =>
      destruct (sets n) as [|e l] eqn:E; [reflexivity|];
      exfalso; apply (H n e); rewrite E; now left end.
Qed.

(** ** Lower case keywords *)

Lemma tolower_ascii_twice (c : ascii) :
  base.tolower_ascii (base.tolower_ascii c) = base.tolower_ascii c.
Proof.
  destruct c as [[] [] [] [] [] [] [] []]; reflexivity.
Qed.

Lemma tolower_twice (s : string) : base.tolower (base.tolower s) = base.tolower s.
Proof.
  induction s as [|c s IH]; simpl; [reflexivity|].
  now rewrite tolower_ascii_twice, IH.
Qed.

(** Without the upper case option every keyword entry of the result is in
    lower case. *)
Theorem getCodeCompletionList_keywords_lower
        (caretLine caretOffset : nat) (defaultSchema : string)
        (parser : MySQLParserObject)
        (functionNames : string) (cache : MySQLObjectNamesCache) :
  Forall
    (fun e => fst e = AC_KEYWORD_IMAGE -> snd e = base.tolower (snd e))
    (getCodeCompletionList caretLine caretOffset defaultSchema false
       parser functionNames cache).
Proof.
  apply Forall_forall. intros e He Hk.
  unfold getCodeCompletionList in He. apply emit_In_order in He.
  destruct He as [name [_ He]]. apply collectedSets_origin in He.
  destruct He; try discriminate Hk.
  cbn [snd]. unfold keywordText. cbn [negb]. now rewrite tolower_twice.
Qed.

(** ** No candidate is lost *)

Lemma kept_by_insert (x : AcEntry) (name : SetName) :
  forall set e sets, In x (sets name) -> In x (insert set e sets name).
Proof. intros. now apply insert_keeps. Qed.

Lemma tokenCandidate_entry (vocabulary : N -> string) (uppercaseKeywords : bool)
      (sets : Sets) (candidate : N * list N) :
  tokenCandidate vocabulary uppercaseKeywords sets candidate
  = insert (candidateSet candidate)
      (candidateEntry vocabulary uppercaseKeywords candidate) sets.
Proof.
  rewrite tokenCandidate_insert. unfold candidateSet, candidateEntry.
  destruct (followedByCall (snd candidate)); reflexivity.
Qed.

Lemma token_loop_represents (vocabulary : N -> string) (uppercaseKeywords : bool)
      (l : list (N * list N)) (sets : Sets) (c : N * list N) :
  In c l ->
  exists x,
    In x (fold_left (tokenCandidate vocabulary uppercaseKeywords) l sets
            (candidateSet c))
    /\ sameText (snd x) (snd (candidateEntry vocabulary uppercaseKeywords c)).
Proof.
  revert sets. induction l as [|a l IH]; intros sets Hin; [destruct Hin|]. simpl.
  destruct Hin as [->|Hin]; [|now apply IH].
  destruct (set_insert_present (candidateEntry vocabulary uppercaseKeywords c)
              (sets (candidateSet c))) as [x [Hx Hs]].
  exists x. split; [|exact Hs].
  apply (token_loop_preserves (fun s => In x (s (candidateSet c))));
    [apply kept_by_insert|].
  rewrite tokenCandidate_entry, insert_same. exact Hx.
Qed.

Lemma insertNames_represents (set : SetName) (kind : Z) (names : list string)
      (sets : Sets) (n : string) :
  In n names ->
  exists x, In x (insertNames set kind names sets set) /\ sameText (snd x) n.
Proof.
  unfold insertNames. revert sets.
  induction names as [|a names IH]; intros sets Hin; [destruct Hin|]. simpl.
  destruct Hin as [->|Hin]; [|now apply IH].
  destruct (set_insert_present (kind, n) (sets set)) as [x [Hx Hs]].
  exists x. split; [|exact Hs].
  apply (fold_preserves (fun s => In x (s set)));
    [intros s a Ha; now apply insert_keeps|].
  rewrite insert_same. exact Hx.
Qed.

Lemma plainRule_switch cache lexer queryType defaultSchema functionNames caretOffset
      refs r scanner sets set kind names :
  plainRule cache r = Some (set, kind, names) ->
  ruleSwitch cache lexer queryType defaultSchema functionNames caretOffset refs r
    scanner sets
  = (scanner, insertNames set kind names sets)
  /\ In set emissionOrder.
Proof.
  destruct r; simpl; intros [= <- <- <-]; (split; [reflexivity|]);
    simpl; tauto.
Qed.

(** Every token candidate left after the post-processing is represented
    in the result: by an entry of kind keyword, or of kind function when
    the candidate is followed by the opening parenthesis, with the text
    made for the candidate, up to case. *)
Theorem getCodeCompletionList_keeps_tokens
        (caretLine caretOffset : nat) (defaultSchema : string)
        (uppercaseKeywords : bool) (parser : MySQLParserObject)
        (functionNames : string) (cache : MySQLObjectNamesCache) :
  Forall
    (fun c =>
       exists e,
         In e (getCodeCompletionList caretLine caretOffset defaultSchema
                 uppercaseKeywords parser functionNames cache)
         /\ fst e = fst (candidateEntry (getDisplayName parser) uppercaseKeywords c)
         /\ sameText (snd e)
              (snd (candidateEntry (getDisplayName parser) uppercaseKeywords c)))
    (tokens (completionCandidates
               (collectCandidates newContext parser (caretOffset, size_t_succ caretLine)))).
Proof.
  apply Forall_forall. intros c Hc.
  rewrite collectCandidates_context in Hc. cbn [completionCandidates] in Hc.
  destruct (collectedSets_loops caretLine caretOffset defaultSchema
              uppercaseKeywords parser functionNames cache) as [scanner Hsets].
  destruct (token_loop_represents (getDisplayName parser) uppercaseKeywords
              _ noEntries c Hc) as [x [Hx Hs]].
  assert (Hfinal : In x (collectedSets caretLine caretOffset defaultSchema
                           uppercaseKeywords parser functionNames cache
                           (candidateSet c))).
  { rewrite Hsets.
    apply (rule_loop_preserves (fun s => In x (s (candidateSet c))));
      [intros; now apply insert_keeps|exact Hx]. }
  exists x. split; [|split; [|exact Hs]].
  - unfold getCodeCompletionList. eapply emissionOrder_In; [|exact Hfinal].
    unfold candidateSet. destruct (followedByCall (snd c)); simpl; tauto.
  - apply collectedSets_origin, origin_kind in Hfinal.
    unfold candidateSet, candidateEntry in *.
    destruct (followedByCall (snd c)); simpl in Hfinal;
      destruct Hfinal as [H|[]]; now rewrite <- H.
Qed.

(** For a rule candidate whose case is one cache query (schemas, engines,
    logfile groups, tablespaces, system variables, charsets, collations),
    every name the cache gives is represented in the result, up to case, by
    an entry of a kind of the set the names go to. *)
Theorem getCodeCompletionList_keeps_names
        (caretLine caretOffset : nat) (defaultSchema : string)
        (uppercaseKeywords : bool) (parser : MySQLParserObject)
        (functionNames : string) (cache : MySQLObjectNamesCache)
        (r : MySQLParser.RuleIndex) (path : list N)
        (set : SetName) (kind : Z) (names : list string) :
  In (r, path)
     (rules (c3_collectCandidates parser (caretOffset, size_t_succ caretLine))) ->
  plainRule cache r = Some (set, kind, names) ->
  Forall
    (fun n =>
       exists e,
         In e (getCodeCompletionList caretLine caretOffset defaultSchema
                 uppercaseKeywords parser functionNames cache)
         /\ In (fst e) (kindsOf set) /\ sameText (snd e) n)
    names.
Proof.
  intros Hr Hplain. apply Forall_forall. intros n Hn.
  destruct (collectedSets_loops caretLine caretOffset defaultSchema
              uppercaseKeywords parser functionNames cache) as [scanner Hsets].
  destruct (renameNot2_frame (c3_collectCandidates parser
                                (caretOffset, size_t_succ caretLine))) as [Hrules _].
  rewrite Hrules in Hsets.
  destruct (in_split _ _ Hr) as [l1 [l2 Hsplit]].
  rewrite Hsplit, fold_left_app in Hsets. cbn [fold_left] in Hsets.
  match type of Hsets with
  | _ = snd (fold_left _ l2 (ruleCandidate _ _ _ _ _ _ _ ?st _)) =>
      set (state := st) in *
  end.
  assert (Hstep : exists sc,
             ruleCandidate cache (getTokenSource parser)
               (determineQueryType (getTokenSource parser)) defaultSchema
               functionNames caretOffset [] state (r, path)
             = (sc, insertNames set kind names (snd state))
             /\ In set emissionOrder).
  { unfold ruleCandidate. cbn [fst].
    edestruct plainRule_switch as [Heq Hin]; [exact Hplain|].
    rewrite Heq. eauto. }
  destruct Hstep as [sc [Hstep Hset]]. rewrite Hstep in Hsets.
  destruct (insertNames_represents set kind names (snd state) n Hn) as [x [Hx Hs]].
  assert (Hfinal : In x (collectedSets caretLine caretOffset defaultSchema
                           uppercaseKeywords parser functionNames cache set)).
  { rewrite Hsets.
    apply (rule_loop_preserves (fun s => In x (s set)));
      [intros; now apply insert_keeps|exact Hx]. }
  exists x. split; [|split; [|exact Hs]].
  - unfold getCodeCompletionList. eapply emissionOrder_In; eassumption.
  - eapply origin_kind, collectedSets_origin, Hfinal.
Qed.

(** A schema reference among the rule candidates: the schema [s] of the
    cache is in the result. *)
Lemma getCodeCompletionList_keeps_names_witness :
  let parser :=
    mkParser [Samples.eof 0] Samples.vocabulary Samples.lexer
      (fun _ => mkCandidates [] [(MySQLParser.RuleSchemaRef, [])]) in
  Forall
    (fun n =>
       exists e,
         In e (getCodeCompletionList 0 0 "s" false parser EmptyString Samples.cache)
         /\ In (fst e) (kindsOf schemaEntries) /\ sameText (snd e) n)
    ["s"%string].
Proof.
  intros parser.
  apply (getCodeCompletionList_keeps_names 0 0 "s" false parser EmptyString
           Samples.cache MySQLParser.RuleSchemaRef [] schemaEntries AC_SCHEMA_IMAGE).
  - simpl. auto.
  - reflexivity.
Defined.

(** ** The scanner between the rule candidates *)

Section ScannerFrame.
Import ScannerOps.

Ltac split_ifs :=
  repeat match goal with
         | |- context [if ?c then _ else _] => destruct c
         end.

Lemma determineQualifier_moves_only
      (scanner : Scanner) (lexer : MySQLLexerObject) (offsetInLine : nat) :
  _tokens (snd (determineQualifier scanner lexer offsetInLine)) = _tokens scanner
  /\ _tokenStack (snd (determineQualifier scanner lexer offsetInLine))
     = _tokenStack scanner.
Proof.
  unfold determineQualifier. split_ifs; split; reflexivity.
Qed.

Lemma determineSchemaTableQualifier_moves_only
      (scanner : Scanner) (lexer : MySQLLexerObject) :
  _tokens (snd (determineSchemaTableQualifier scanner lexer)) = _tokens scanner
  /\ _tokenStack (snd (determineSchemaTableQualifier scanner lexer))
     = _tokenStack scanner.
Proof.
  unfold determineSchemaTableQualifier. split_ifs; split; reflexivity.
Qed.

Lemma ruleSwitch_moves_only cache lexer queryType defaultSchema functionNames
      caretOffset refs candidate scanner sets :
  _tokens (fst (ruleSwitch cache lexer queryType defaultSchema functionNames
                  caretOffset refs candidate scanner sets)) = _tokens scanner
  /\ _tokenStack (fst (ruleSwitch cache lexer queryType defaultSchema functionNames
                         caretOffset refs candidate scanner sets))
     = _tokenStack scanner.
Proof.
  pose proof (determineQualifier_moves_only scanner lexer caretOffset) as HQ.
  pose proof (determineSchemaTableQualifier_moves_only scanner lexer) as HS.
  destruct candidate; unfold ruleSwitch, qualifiedCandidate, columnCandidate;
    cbv beta iota; try (split; reflexivity);
    try (destruct (determineQualifier scanner lexer caretOffset)
           as [[flags qualifier] scanner']; exact HQ);
    destruct (determineSchemaTableQualifier scanner lexer)
      as [[[flags schema0] table0] scanner']; exact HS.
Qed.

End ScannerFrame.

Lemma rule_loop_from_caret cache lexer queryType defaultSchema functionNames
      caretOffset refs (rs : list (MySQLParser.RuleIndex * list N))
      (toks : list Token) (caret i : nat) (saved : list nat) (sets : Sets) :
  snd (fold_left
         (ruleCandidate cache lexer queryType defaultSchema functionNames
            caretOffset refs)
         rs (mkScanner toks i (caret :: saved), sets))
  = fold_left
      (fun sets r =>
         snd (ruleSwitch cache lexer queryType defaultSchema functionNames
                caretOffset refs (fst r)
                (mkScanner toks caret (caret :: saved)) sets))
      rs sets.
Proof.
  revert i sets. induction rs as [|r rs IH]; intros i sets; simpl; [reflexivity|].
  change (ruleCandidate cache lexer queryType defaultSchema functionNames
            caretOffset refs (mkScanner toks i (caret :: saved), sets) r)
    with (ruleSwitch cache lexer queryType defaultSchema functionNames
            caretOffset refs (fst r) (mkScanner toks caret (caret :: saved)) sets).
  destruct (ruleSwitch_moves_only cache lexer queryType defaultSchema
              functionNames caretOffset refs (fst r)
              (mkScanner toks caret (caret :: saved)) sets) as [Ht Hs].
  destruct (ruleSwitch cache lexer queryType defaultSchema functionNames
              caretOffset refs (fst r) (mkScanner toks caret (caret :: saved)) sets)
    as [[toks' i' saved'] sets'].
  cbn [fst snd _tokens _tokenStack] in *. subst toks' saved'. apply IH.
Qed.

Lemma caretScanner_shape (parser : MySQLParserObject) (caretLine caretOffset : nat) :
  caretScanner parser caretLine caretOffset
  = mkScanner (getTokenStream parser)
      (ScannerOps.tokenIndex (caretScanner parser caretLine caretOffset))
      [ScannerOps.tokenIndex (caretScanner parser caretLine caretOffset)].
Proof.
  unfold caretScanner, ScannerOps.advanceToPosition.
  destruct (ScannerOps.advance_loop _ _ _ _); reflexivity.
Qed.

(** Every rule candidate is handled with the scanner at the caret: where
    one case leaves the scanner has no bearing on the next, and the
    collected sets are the token loop followed by the cases of the switch,
    each run from the caret, with no table reference at hand. *)
Theorem collectedSets_from_caret
        (caretLine caretOffset : nat) (defaultSchema : string)
        (uppercaseKeywords : bool) (parser : MySQLParserObject)
        (functionNames : string) (cache : MySQLObjectNamesCache) :
  let candidates :=
    completionCandidates
      (collectCandidates newContext parser (caretOffset, size_t_succ caretLine)) in
  collectedSets caretLine caretOffset defaultSchema uppercaseKeywords parser
    functionNames cache
  = fold_left
      (fun sets r =>
         snd (ruleSwitch cache (getTokenSource parser)
                (determineQueryType (getTokenSource parser)) defaultSchema
                functionNames caretOffset [] (fst r)
                (caretScanner parser caretLine caretOffset) sets))
      (rules candidates)
      (fold_left (tokenCandidate (getDisplayName parser) uppercaseKeywords)
         (tokens candidates) noEntries).
Proof.
  intros candidates. unfold candidates.
  rewrite collectCandidates_context. cbn [completionCandidates].
  unfold collectedSets. rewrite collectCandidates_context.
  cbn [completionCandidates references].
  fold (caretScanner parser caretLine caretOffset).
  rewrite (caretScanner_shape parser caretLine caretOffset) at 1.
  match goal with |- (let '(_, _) := ?x in _) = _ =>
    transitivity (snd x); [destruct x; reflexivity|] end.
  rewrite rule_loop_from_caret.
  rewrite <- (caretScanner_shape parser caretLine caretOffset). reflexivity.
Qed.

(** ** Rules without a case in the switch *)

Lemma fold_left_filter_skip (A B : Type) (f : B -> A -> B) (keep : A -> bool)
      (l : list A) :
  (forall a b, keep a = false -> f b a = b) ->
  forall b, fold_left f (filter keep l) b = fold_left f l b.
Proof.
  intros Hskip. induction l as [|a l IH]; intros b; simpl; [reflexivity|].
  destruct (keep a) eqn:E; simpl; [apply IH|].
  rewrite (Hskip a b E). apply IH.
Qed.

Lemma renameNot2_tokens_only (ts : list (N * list N))
      (rs1 rs2 : list (MySQLParser.RuleIndex * list N)) :
  tokens (renameNot2 (mkCandidates ts rs1)) = tokens (renameNot2 (mkCandidates ts rs2)).
Proof.
  unfold renameNot2. cbn [tokens rules].
  destruct (0 <? _); [|reflexivity].
  destruct (StdMap.find _ _); reflexivity.
Qed.

Lemma collectedSets_caret_fold
      (caretLine caretOffset : nat) (defaultSchema : string)
      (uppercaseKeywords : bool) (parser : MySQLParserObject)
      (functionNames : string) (cache : MySQLObjectNamesCache) :
  collectedSets caretLine caretOffset defaultSchema uppercaseKeywords parser
    functionNames cache
  = fold_left
      (fun sets r =>
         snd (ruleSwitch cache (getTokenSource parser)
                (determineQueryType (getTokenSource parser)) defaultSchema
                functionNames caretOffset [] (fst r)
                (caretScanner parser caretLine caretOffset) sets))
      (rules (renameNot2 (c3_collectCandidates parser (caretOffset, size_t_succ caretLine))))
      (fold_left (tokenCandidate (getDisplayName parser) uppercaseKeywords)
         (tokens (renameNot2 (c3_collectCandidates parser
                                (caretOffset, size_t_succ caretLine))))
         noEntries).
Proof.
  unfold collectedSets. rewrite collectCandidates_context.
  cbn [completionCandidates references].
  fold (caretScanner parser caretLine caretOffset).
  rewrite (caretScanner_shape parser caretLine caretOffset) at 1.
  match goal with |- (let '(_, _) := ?x in _) = _ =>
    transitivity (snd x); [destruct x; reflexivity|] end.
  rewrite rule_loop_from_caret.
  rewrite <- (caretScanner_shape parser caretLine caretOffset). reflexivity.
Qed.

Lemma ignoredRule_switch cache lexer queryType defaultSchema functionNames
      caretOffset refs r scanner sets :
  ignoredRule r = true ->
  snd (ruleSwitch cache lexer queryType defaultSchema functionNames caretOffset
         refs r scanner sets) = sets.
Proof. destruct r; simpl; intros H; try discriminate H; reflexivity. Qed.

(** The rule candidates without a case in the switch (server references,
    parameter and procedure names, identifiers, label identifiers and any
    rule that is not a preferred one) have no effect on the result. *)
Theorem getCodeCompletionList_ignored_rules
        (caretLine caretOffset : nat) (defaultSchema : string)
        (uppercaseKeywords : bool) (parser : MySQLParserObject)
        (functionNames : string) (cache : MySQLObjectNamesCache) :
  getCodeCompletionList caretLine caretOffset defaultSchema uppercaseKeywords
    (dropIgnored parser) functionNames cache
  = getCodeCompletionList caretLine caretOffset defaultSchema uppercaseKeywords
      parser functionNames cache.
Proof.
  unfold getCodeCompletionList. f_equal.
  rewrite !collectedSets_caret_fold.
  destruct (renameNot2_frame
              (c3_collectCandidates (dropIgnored parser)
                 (caretOffset, size_t_succ caretLine))) as [-> _].
  destruct (renameNot2_frame
              (c3_collectCandidates parser (caretOffset, size_t_succ caretLine)))
    as [-> _].
  cbn [dropIgnored c3_collectCandidates getTokenSource getDisplayName rules].
  destruct (c3_collectCandidates parser (caretOffset, size_t_succ caretLine)) as [ts rs].
  cbn [tokens rules].
  rewrite (renameNot2_tokens_only ts _ rs).
  apply fold_left_filter_skip.
  intros r sets Hr. apply ignoredRule_switch.
  now destruct (ignoredRule (fst r)).
Qed.

(** ** Columns without a typed table *)

Lemma columnCandidate_without_table cache lexer queryType defaultSchema candidate
      scanner sets :
  snd (fst (determineSchemaTableQualifier scanner lexer)) = EmptyString ->
  snd (columnCandidate cache lexer queryType defaultSchema [] candidate scanner sets)
  = snd (columnCandidate (withoutColumns cache) lexer queryType defaultSchema []
           candidate scanner sets).
Proof.
  unfold columnCandidate.
  destruct (determineSchemaTableQualifier scanner lexer)
    as [[[flags schema0] table0] scanner']. cbn [fst snd]. intros ->.
  destruct (hasFlag flags ShowColumns); reflexivity.
Qed.

Lemma ruleSwitch_without_table cache lexer queryType defaultSchema functionNames
      caretOffset r scanner sets :
  snd (fst (determineSchemaTableQualifier scanner lexer)) = EmptyString ->
  snd (ruleSwitch cache lexer queryType defaultSchema functionNames caretOffset []
         r scanner sets)
  = snd (ruleSwitch (withoutColumns cache) lexer queryType defaultSchema
           functionNames caretOffset [] r scanner sets).
Proof.
  intros H.
  destruct r; try reflexivity;
    unfold ruleSwitch; now apply columnCandidate_without_table.
Qed.

(** When the three-part analysis at the caret finds no table, the result
    has no entry of kind column, whatever the cache holds and whichever
    rules the engine reports. *)
Theorem getCodeCompletionList_no_columns
        (caretLine caretOffset : nat) (defaultSchema : string)
        (uppercaseKeywords : bool) (parser : MySQLParserObject)
        (functionNames : string) (cache : MySQLObjectNamesCache) :
  snd (fst (determineSchemaTableQualifier
              (caretScanner parser caretLine caretOffset) (getTokenSource parser)))
  = EmptyString ->
  Forall (fun e => fst e <> AC_COLUMN_IMAGE)
    (getCodeCompletionList caretLine caretOffset defaultSchema uppercaseKeywords
       parser functionNames cache).
Proof.
  intros Htable. apply Forall_forall. intros e He Hk.
  unfold getCodeCompletionList in He. apply emit_In_order in He.
  destruct He as [name [_ He]].
  assert (Hname : name = columnEntries).
  { apply collectedSets_origin in He. destruct He; try discriminate Hk; reflexivity. }
  subst name. rewrite collectedSets_caret_fold in He.
  set (toks := tokens (renameNot2 (c3_collectCandidates parser
                                     (caretOffset, size_t_succ caretLine)))) in *.
  assert (Hnone :
    fold_left
      (fun sets r =>
         snd (ruleSwitch cache (getTokenSource parser)
                (determineQueryType (getTokenSource parser)) defaultSchema
                functionNames caretOffset [] (fst r)
                (caretScanner parser caretLine caretOffset) sets))
      (rules (renameNot2 (c3_collectCandidates parser
                            (caretOffset, size_t_succ caretLine))))
      (fold_left (tokenCandidate (getDisplayName parser) uppercaseKeywords)
         toks noEntries) columnEntries = []).
  { set (reported :=
           map fst (rules (renameNot2 (c3_collectCandidates parser
                                         (caretOffset, size_t_succ caretLine))))).
    assert (HP : forall set e0 sets,
               origin toks (getDisplayName parser) uppercaseKeywords
                 (withoutColumns cache) functionNames [] reported set e0 ->
               sets columnEntries = [] -> insert set e0 sets columnEntries = []).
    { intros set e0 sets Ho Hs.
      destruct Ho; try (rewrite insert_other by discriminate; exact Hs).
      match goal with
      | H : In _ (getMatchingColumnNames _ _ _ _) |- _ => destruct H
      end. }
    apply (fold_keeps (fun sets => sets columnEntries = [])).
    - intros sets r Hr Hs. rewrite ruleSwitch_without_table by exact Htable.
      eapply (ruleSwitch_keeps toks (getDisplayName parser) uppercaseKeywords
                (withoutColumns cache) functionNames [] reported
                (fun sets => sets columnEntries = []));
        [exact HP|apply in_map; exact Hr|exact Hs].
    - eapply (token_loop_keeps toks (getDisplayName parser) uppercaseKeywords
                (withoutColumns cache) functionNames [] reported
                (fun sets => sets columnEntries = [])); [exact HP|apply incl_refl|].
      reflexivity. }
  rewrite Hnone in He. destruct He.
Qed.

(** [SELECT ^ FROM t1]: nothing is typed at the caret, so no column is
    offered although [t1] follows. *)
Lemma getCodeCompletionList_no_columns_witness :
  Forall (fun e => fst e <> AC_COLUMN_IMAGE)
    (getCodeCompletionList 0 7 "s" false Samples.selectFrom EmptyString
       Samples.cache).
Proof.
  apply (getCodeCompletionList_no_columns 0 7 "s" false Samples.selectFrom
           EmptyString Samples.cache).
  reflexivity.
Defined.

(** ** Display names *)

Lemma substring_app_head (s t : string) :
  substring 0 (String.length s) (String.append s t) = s.
Proof.
  induction s as [|c s IH]; simpl.
  - destruct t; reflexivity.
  - now rewrite IH.
Qed.

Lemma length_append (s t : string) :
  String.length (String.append s t) = String.length s + String.length t.
Proof. induction s as [|c s IH]; simpl; [reflexivity|now rewrite IH]. Qed.

Lemma prefix_app (p t : string) : String.prefix p (String.append p t) = true.
Proof. apply String.prefix_correct, substring_app_head. Qed.

Lemma rfind_found_suffix (pat base0 : string) :
  rfind_found pat (String.append base0 pat) = true.
Proof.
  induction base0 as [|c b IH]; simpl.
  - pose proof (prefix_app pat EmptyString) as H.
    assert (E : String.append pat EmptyString = pat).
    { clear. induction pat as [|c p IH]; simpl; [reflexivity|now rewrite IH]. }
    rewrite E in H. destruct pat; simpl; [reflexivity|].
    simpl in H. rewrite H. reflexivity.
  - rewrite IH. apply orb_true_r.
Qed.

(** A display name that ends in [_SYMBOL] is listed without that ending. *)
Theorem displayEntry_strips_suffix
        (vocabulary : N -> string) (token : N) (name : string) :
  vocabulary token = String.append name "_SYMBOL" ->
  displayEntry vocabulary token = name.
Proof.
  intros H. unfold displayEntry. rewrite H, rfind_found_suffix.
  rewrite length_append. simpl String.length.
  replace (String.length name + 7 - 7) with (String.length name) by lia.
  apply substring_app_head.
Qed.

Lemma displayEntry_strips_suffix_witness :
  displayEntry Samples.vocabulary MySQLLexer.NOW_SYMBOL = "NOW"%string.
Proof.
  apply (displayEntry_strips_suffix Samples.vocabulary MySQLLexer.NOW_SYMBOL "NOW").
  reflexivity.
Defined.

(** ** The schemas of the column branch *)

Lemma insert_schemas_In (refs : list TableReference) (acc : StringSet.t) (t : string) :
  In t (fold_left
          (fun schemas r =>
             if negb (str_empty (schema r))
             then StringSet.insert (schema r) schemas else schemas)
          refs acc)
  <-> In t acc
      \/ exists r, In r refs /\ str_empty (schema r) = false /\ t = schema r.
Proof.
  revert acc. induction refs as [|r refs IH]; intros acc; simpl.
  - split; [auto|]. intros [H|[r [[] _]]]; exact H.
  - rewrite IH. destruct (str_empty (schema r)) eqn:E; cbn [negb].
    + split.
      * intros [H|[r' [H1 H2]]]; eauto.
      * intros [H|[r' [[->|H1] [H2 H3]]]]; [auto|congruence|eauto].
    + rewrite StringSet_insert_In. split.
      * intros [[->|H]|[r' [H1 H2]]]; [right; exists r; auto|auto|].
        right. exists r'. tauto.
      * intros [H|[r' [[->|H1] [H2 H3]]]]; [auto|auto|].
        right. exists r'. auto.
Qed.

Lemma StringSet_empty_In (s : StringSet.t) :
  StringSet.empty s = true <-> forall t, ~ In t s.
Proof.
  destruct s as [|x s]; simpl; split; auto.
  - discriminate.
  - intros H. exfalso. apply (H x). now left.
Qed.

(** The schemas to query are never none: the typed schema alone when one
    is typed; else the schemas named by the references, when some reference
    names one; else the default schema. *)
Theorem columnSchemas_contents
        (schema0 defaultSchema : string) (refs : list TableReference) :
  StringSet.empty (columnSchemas schema0 defaultSchema refs) = false
  /\ forall t,
       In t (columnSchemas schema0 defaultSchema refs)
       <-> (str_empty schema0 = false /\ t = schema0)
           \/ (str_empty schema0 = true
               /\ exists r, In r refs /\ str_empty (schema r) = false
                            /\ t = schema r)
           \/ (str_empty schema0 = true
               /\ (forall r, In r refs -> str_empty (schema r) = true)
               /\ t = defaultSchema).
Proof.
  unfold columnSchemas. cbv zeta.
  destruct (str_empty schema0) eqn:E; cbn [negb].
  - match goal with
    | |- StringSet.empty (if StringSet.empty ?n then _ else _) = false /\ _ =>
        set (named := n)
    end.
    assert (Hnamed : forall t,
               In t named
               <-> exists r, In r refs /\ str_empty (schema r) = false
                             /\ t = schema r).
    { intros t. unfold named. destruct refs as [|r0 rest].
      - simpl. split; [tauto|]. intros [r [[] _]].
      - rewrite insert_schemas_In. simpl. tauto. }
    clearbody named. destruct named as [|x l]; simpl.
    + split; [reflexivity|]. intros t. split.
      * intros [<-|[]]. right; right. split; [reflexivity|]. split; [|reflexivity].
        intros r Hr. destruct (str_empty (schema r)) eqn:Er; [reflexivity|].
        exfalso. apply (proj2 (Hnamed (schema r))). eauto.
      * intros [[H _]|[[_ Hex]|[_ [_ ->]]]]; [discriminate| |auto].
        exfalso. apply (proj2 (Hnamed t)), Hex.
    + split; [reflexivity|]. intros t.
      change (x = t \/ In t l) with (In t (x :: l)). rewrite Hnamed. split.
      * intros H. right; left. auto.
      * intros [[H _]|[[_ H]|[_ [Hall ->]]]]; [discriminate|exact H|exfalso].
        assert (Hx : In x (x :: l)) by now left.
        apply Hnamed in Hx. destruct Hx as [r [Hr [Hs _]]].
        rewrite (Hall r Hr) in Hs. discriminate.
  - simpl. split; [reflexivity|]. intros t. split.
    + intros [<-|[]]. auto.
    + intros [[_ ->]|[[H _]|[H _]]]; [now left|discriminate|discriminate].
Qed.

(** ** Entries with one text *)

Lemma sameText_trans (a b c : string) : sameText a b -> sameText b c -> sameText a c.
Proof. unfold sameText. rewrite !string_compare_zero. congruence. Qed.

(** In a set in order, an entry whose text is that of the entry put in
    just before, up to case, is dropped whatever its kind; in particular
    putting an entry in twice is the same as putting it in once. *)
Theorem set_insert_same_text (e e' : AcEntry) (s : CompletionSet) :
  StronglySorted textLess s -> sameText (snd e) (snd e') ->
  set_insert e' (set_insert e s) = set_insert e s
  /\ set_insert e (set_insert e s) = set_insert e s.
Proof.
  intros Hs Hsame.
  destruct (set_insert_present e s) as [x [Hx Hxe]].
  pose proof (set_insert_sorted e s Hs) as Hs'.
  split.
  - apply (set_insert_duplicate e' x); [exact Hs'|exact Hx|].
    eapply sameText_trans; eassumption.
  - apply (set_insert_duplicate e x); assumption.
Qed.

Lemma set_insert_same_text_witness :
  set_insert (AC_TABLE_IMAGE, "T1"%string)
    (set_insert (AC_SCHEMA_IMAGE, "t1"%string) [(AC_SCHEMA_IMAGE, "s"%string)])
  = set_insert (AC_SCHEMA_IMAGE, "t1"%string) [(AC_SCHEMA_IMAGE, "s"%string)].
Proof.
  apply (set_insert_same_text (AC_SCHEMA_IMAGE, "t1"%string)
           (AC_TABLE_IMAGE, "T1"%string) [(AC_SCHEMA_IMAGE, "s"%string)]).
  - repeat constructor.
  - reflexivity.
Defined.

(** ** No candidates *)

(** When the engine reports neither a token nor a rule, the result is
    empty, whatever the cache and the list of function names hold. *)
Theorem getCodeCompletionList_no_candidates
        (caretLine caretOffset : nat) (defaultSchema : string)
        (uppercaseKeywords : bool) (parser : MySQLParserObject)
        (functionNames : string) (cache : MySQLObjectNamesCache) :
  tokens (c3_collectCandidates parser (caretOffset, size_t_succ caretLine)) = [] ->
  rules (c3_collectCandidates parser (caretOffset, size_t_succ caretLine)) = [] ->
  getCodeCompletionList caretLine caretOffset defaultSchema uppercaseKeywords
    parser functionNames cache = [].
Proof.
  intros Ht Hr. unfold getCodeCompletionList.
  rewrite collectedSets_caret_fold.
  destruct (renameNot2_frame
              (c3_collectCandidates parser (caretOffset, size_t_succ caretLine)))
    as [-> [Hsame _]].
  rewrite Hsame by (rewrite Ht; reflexivity).
  rewrite Ht, Hr. reflexivity.
Qed.

Lemma getCodeCompletionList_no_candidates_witness :
  getCodeCompletionList 0 0 "s" false
    (mkParser [Samples.eof 0] Samples.vocabulary Samples.lexer
       (fun _ => mkCandidates [] []))
    "now curdate" Samples.cache = [].
Proof.
  apply (getCodeCompletionList_no_candidates 0 0 "s" false
           (mkParser [Samples.eof 0] Samples.vocabulary Samples.lexer
              (fun _ => mkCandidates [] []))
           "now curdate" Samples.cache); reflexivity.
Defined.
